(** * go-errors: structured errors, their constructors and matching

    A shallow embedding of the package [errors] of
    andryhardiyanto/go-errors.  The repository holds two versions of the
    constructors: the one of [error.go], whose predefined errors are
    package-level variables initialised once ([Module Eager]), and the one
    whose predefined errors are factory functions ([Module Lazy]).  Both
    share the [Error] type and its methods [Error], [Unwrap] and [Is]. *)

From stdpp Require Import base option list strings numbers pretty.
From Stdlib Require Import ZArith Lia.

Open Scope string_scope.
Open Scope list_scope.

(** ** Go slices

    A slice is either [nil] or a (possibly empty) sequence; [len] does not
    tell the two apart, a comparison with [nil] does. *)

Inductive slice (A : Type) : Type :=
| slice_nil : slice A
| slice_of : list A → slice A.
Arguments slice_nil {A}.
Arguments slice_of {A} _.

Definition elems {A} (s : slice A) : list A :=
  match s with slice_nil => [] | slice_of l => l end.

Definition len {A} (s : slice A) : nat := length (elems s).

Definition is_nil {A} (s : slice A) : bool :=
  match s with slice_nil => true | slice_of _ => false end.

(** [make([]T, 0)] *)
Definition make0 {A} : slice A := slice_of [].

(** [append(s, xs...)]: appending nothing returns [s] itself. *)
Definition append {A} (s : slice A) (xs : list A) : slice A :=
  match xs with
  | [] => s
  | _ => slice_of (elems s ++ xs)
  end.

(** ** The data model (type declarations of the package) *)

Definition ViolationErrorType := string.

Record ValidationError := mkValidationError {
  v_Type : ViolationErrorType;
  v_Field : string;
  v_Message : string }.

Definition ViolationErrorTypeRequired : ViolationErrorType := "REQUIRED".
Definition ViolationErrorTypeOneOf : ViolationErrorType := "ONEOF".
Definition ViolationErrorTypeUUID : ViolationErrorType := "UUID".
Definition ViolationErrorTypeMin : ViolationErrorType := "MIN".
Definition ViolationErrorTypeMax : ViolationErrorType := "MAX".
Definition ViolationErrorTypeEmail : ViolationErrorType := "EMAIL".
Definition ViolationErrorTypeDate : ViolationErrorType := "DATE".
Definition ViolationErrorTypeRequiredIf : ViolationErrorType := "REQUIRED_IF".

(** Addresses of [Error] structs; a [*Error] is [None] when it is the nil
    pointer. *)
Abbreviation loc := nat.
Abbreviation ptr := (option loc).

(** A Go value of a type that is not a pointer type, as [==] sees it. *)
#[warnings="-register-all"]
Inductive govalue : Type :=
| atom (a : string)
    (* a boolean, number, string, channel or pointer inside a struct:
       the value written out; equal when the same *)
| nan
    (* a floating-point not-a-number: equal to nothing, itself included *)
| tuple (vs : list govalue)
    (* a struct or array of a comparable type: its fields or elements in
       source order, blank fields left out *)
| box (type : string) (v : govalue)
    (* a field of interface type that holds [v] of dynamic type [type] *)
| box_nil
    (* a field of interface type that is nil *)
| opaque.
    (* a value of a type that is not comparable: a slice, map or
       function, or a struct or array that has one *)

(** [v == w] for two values of one type.  Fields are compared in order
    and the comparison stops at the first that differ; [None] is the
    run-time panic on two interface values of one type that is not
    comparable. *)
Fixpoint value_eq (v w : govalue) {struct v} : option bool :=
  match v, w with
  | atom a, atom b => Some (String.eqb a b)
  | tuple vs, tuple ws =>
      (fix fields (vs ws : list govalue) {struct vs} : option bool :=
         match vs, ws with
         | [], [] => Some true
         | v' :: vs', w' :: ws' =>
             match value_eq v' w' with
             | Some true => fields vs' ws'
             | r => r
             end
         | _, _ => Some false
         end) vs ws
  | box t v', box u w' => if String.eqb t u then value_eq v' w' else Some false
  | box_nil, box_nil => Some true
  | opaque, _ | _, opaque => None
  | _, _ => Some false
  end.

(** A value with no not-a-number and nothing that is not comparable
    in it. *)
Fixpoint plain (v : govalue) : bool :=
  match v with
  | atom _ | box_nil => true
  | nan | opaque => false
  | tuple vs => forallb plain vs
  | box _ v' => plain v'
  end.

(** What an interface value holds for a dynamic type other than
    [*Error]: a pointer, which [==] compares by address, or a value. *)
Inductive shape : Type :=
| by_pointer
| by_value (v : govalue).

(** An error whose dynamic type is not [*Error].  [f_type] is its
    dynamic type; [f_data] the data word of the interface value, that
    is the pointer itself when the type is a pointer type, as for the
    errors [fmt.Errorf] and the standard [errors.New] make, and the
    address of the boxed copy of the value otherwise; [f_shape] says
    which, with the value; [f_text] is what its [Error] method
    returns. *)
Record foreign := Foreign {
  f_type : string;
  f_data : N;
  f_shape : shape;
  f_text : string }.

(** A value of the interface type [error]: the nil interface, a [*Error]
    (which may be a nil pointer inside a non-nil interface), or a foreign
    error. *)
Inductive error : Type :=
| error_nil
| error_Error (p : ptr)
| error_foreign (f : foreign).

(** [x == nil] on an interface value. *)
Definition error_is_nil (x : error) : bool :=
  match x with error_nil => true | _ => false end.

(** [f == g] on two foreign errors: different dynamic types are
    different; pointers are equal when they are the same address;
    values are compared as values, which panics on a type that is not
    comparable. *)
Definition foreign_eq (f g : foreign) : option bool :=
  if negb (String.eqb (f_type f) (f_type g)) then Some false
  else match f_shape f, f_shape g with
       | by_pointer, by_pointer => Some (N.eqb (f_data f) (f_data g))
       | by_value v, by_value w => value_eq v w
       | _, _ => Some false
       end.

(** [a == b] on interface values; [None] is the run-time panic. *)
Definition go_eq (a b : error) : option bool :=
  match a, b with
  | error_nil, error_nil => Some true
  | error_Error p, error_Error q => Some (bool_decide (p = q))
  | error_foreign f, error_foreign g => foreign_eq f g
  | _, _ => Some false
  end.

Record Error := mkError {
  e_Type : string;
  e_Code : Z;
  e_Message : string;
  e_Violations : slice ValidationError;
  e_Err : error;
  e_StackTraces : slice string }.

Definition set_Violations (v : slice ValidationError) (e : Error) : Error :=
  mkError (e_Type e) (e_Code e) (e_Message e) v (e_Err e) (e_StackTraces e).
Definition set_Err (x : error) (e : Error) : Error :=
  mkError (e_Type e) (e_Code e) (e_Message e) (e_Violations e) x (e_StackTraces e).
Definition set_StackTraces (t : slice string) (e : Error) : Error :=
  mkError (e_Type e) (e_Code e) (e_Message e) (e_Violations e) (e_Err e) t.

(** ** The store of [Error] structs

    [&Error{...}] allocates at the end of the store, so a fresh address
    is never one already handed out.  An operation is a function of the
    store that returns [None] where the Go code would panic (a nil or
    dangling dereference). *)

Abbreviation heap := (list Error).

Definition M (A : Type) : Type := heap → option (A * heap).

Definition ret {A} (a : A) : M A := λ h, Some (a, h).

Definition bind {A B} (m : M A) (k : A → M B) : M B :=
  λ h, match m h with
       | Some (a, h') => k a h'
       | None => None
       end.

Notation "'let!' x ':=' m 'in' k" := (bind m (λ x, k))
  (at level 10, x name, m at level 100, k at level 200).

(** [&Error{...}] *)
Definition alloc (e : Error) : M ptr := λ h, Some (Some (length h), h ++ [e]).

(** [*p] read *)
Definition load (p : ptr) : M Error :=
  λ h, match p with
       | Some l => match h !! l with Some e => Some (e, h) | None => None end
       | None => None
       end.

(** [p.f = v] *)
Definition store (p : ptr) (f : Error → Error) : M unit :=
  λ h, match p with
       | Some l => match h !! l with
                   | Some e => Some (tt, <[l := f e]> h)
                   | None => None
                   end
       | None => None
       end.

(** ** What the package uses of the Go library

    [strings.HasPrefix] is [String.prefix]; [%d] of [fmt.Sprintf] is
    [pretty] on [Z]. *)

Definition newline : Ascii.ascii := Ascii.ascii_of_nat 10.

(** [strings.Split(s, "\n")]: the pieces between line feeds; an empty
    [s] gives one empty piece. *)
Fixpoint strings_Split (s : string) : list string :=
  match s with
  | EmptyString => [""]
  | String c s' =>
      if Ascii.eqb c newline then "" :: strings_Split s'
      else match strings_Split s' with
           | x :: r => String c x :: r
           | [] => [String c ""]
           end
  end.

(** The UTF-8 encodings of the runes [unicode.IsSpace] accepts: tab to
    carriage return, space, U+0085, U+00A0, U+1680, U+2000 to U+200A,
    U+2028, U+2029, U+202F, U+205F and U+3000. *)
Definition white_space_rune (bs : list N) : bool :=
  match bs with
  | [b] => bool_decide (b ∈ [9; 10; 11; 12; 13; 32]%N)
  | [0xC2; b]%N => bool_decide (b ∈ [0x85; 0xA0]%N)
  | [0xE1; 0x9A; 0x80]%N => true
  | [0xE2; 0x80; b]%N =>
      (0x80 <=? b)%N && (b <=? 0x8A)%N || bool_decide (b ∈ [0xA8; 0xA9; 0xAF]%N)
  | [0xE2; 0x81; 0x9F]%N => true
  | [0xE3; 0x80; 0x80]%N => true
  | _ => false
  end.

(** Drop the white-space runes a byte sequence starts with. *)
Fixpoint trim_left (fuel : nat) (bs : list N) : list N :=
  match fuel with
  | O => bs
  | S n =>
      if white_space_rune (take 1 bs) then trim_left n (drop 1 bs)
      else if white_space_rune (take 2 bs) then trim_left n (drop 2 bs)
      else if white_space_rune (take 3 bs) then trim_left n (drop 3 bs)
      else bs
  end.

(** Drop the white-space runes a byte sequence ends with, given
    reversed. *)
Fixpoint trim_right_rev (fuel : nat) (rs : list N) : list N :=
  match fuel with
  | O => rs
  | S n =>
      if white_space_rune (reverse (take 1 rs)) then trim_right_rev n (drop 1 rs)
      else if white_space_rune (reverse (take 2 rs)) then trim_right_rev n (drop 2 rs)
      else if white_space_rune (reverse (take 3 rs)) then trim_right_rev n (drop 3 rs)
      else rs
  end.

Definition bytes_of_string (s : string) : list N :=
  map Ascii.N_of_ascii (String.list_ascii_of_string s).

Definition string_of_bytes (bs : list N) : string :=
  String.string_of_list_ascii (map Ascii.ascii_of_N bs).

(** [strings.TrimSpace] *)
Definition strings_TrimSpace (s : string) : string :=
  let bs := trim_left (String.length s) (bytes_of_string s) in
  string_of_bytes (reverse (trim_right_rev (length bs) (reverse bs))).

(** [runtime.Stack(buf, false)] writes the dump of the calling goroutine
    into [buf] and stops where [buf] ends; [dump] is the whole text the
    runtime has for the goroutine at the call. *)
Definition runtime_Stack (dump : string) (size : nat) : string :=
  String.substring 0 size dump.

(** [runtime.Frame], the fields the package reads. *)
Record Frame := mkFrame { File : string; Line : Z; Function : string }.

(** [runtime.Callers(skip, pcs)] followed by [pcs[:n]]: the frames of
    the calling goroutine from the [skip]-th on, frame 0 being that of
    [Callers] itself, as many as [pcs] holds.  [stack] is the call stack
    with the frame of [Callers] at its head. *)
Definition runtime_Callers (stack : list Frame) (skip : nat) (cap : nat) : list Frame :=
  take cap (drop skip stack).

(** [frames.Next()]: the next frame, whether more follow, and the rest;
    past the end it gives the zero [Frame]. *)
Definition frames_Next (frames : list Frame) : Frame * bool * list Frame :=
  match frames with
  | [] => (mkFrame "" 0 "", false, [])
  | f :: rest => (f, negb (bool_decide (rest = [])), rest)
  end.

(** ** Methods of [*Error] *)

(** [func (e *Error) Error() string].  The call [e.Err.Error()] is
    dispatched on the dynamic type of the cause; a cause that is again
    a [*Error] recurses, so the function takes fuel, and [None] is the
    recursion that does not come back (a cause chain that is a cycle). *)
Fixpoint Error_Error (fuel : nat) (h : heap) (e : ptr) : option string :=
  match e with
  | None => Some ""
  | Some l =>
      match fuel with
      | O => None
      | S n =>
          match h !! l with
          | None => None
          | Some E =>
              match e_Err E with
              | error_nil => Some (e_Message E)
              | error_Error p => Error_Error n h p
              | error_foreign f => Some (f_text f)
              end
          end
      end
  end.

(** [x.Error()] on an interface value [x]; on the nil interface the call
    panics. *)
Definition error_Error_method (fuel : nat) (h : heap) (x : error) : option string :=
  match x with
  | error_nil => None
  | error_Error p => Error_Error fuel h p
  | error_foreign f => Some (f_text f)
  end.

(** The description of a [*Error] in a store: a chain of causes visits
    each struct at most once unless it is a cycle, so the size of the
    store is fuel enough. *)
Definition description (h : heap) (e : ptr) : option string :=
  Error_Error (S (length h)) h e.

Definition error_description (h : heap) (x : error) : option string :=
  error_Error_method (S (length h)) h x.

(** [func (e *Error) Unwrap() error] *)
Definition Unwrap (h : heap) (e : ptr) : option error :=
  match e with
  | None => Some error_nil
  | Some l => e_Err <$> h !! l
  end.

(** [func (e *Error) Is(target error) bool] *)
Definition Is (h : heap) (e : ptr) (target : error) : option bool :=
  match e with
  | None => Some (error_is_nil target)
  | Some l =>
      match h !! l with
      | None => None
      | Some E =>
          match target with
          | error_Error targetErr =>
              match targetErr with
              | Some t => (λ T, String.eqb (e_Type E) (e_Type T)) <$> h !! t
              | None => None
              end
          | _ =>
              if negb (error_is_nil (e_Err E))
              then go_eq (e_Err E) target
              else Some false
          end
      end
  end.

(** ** The constructors of [error.go]

    The stack is read with [runtime.Stack]; every constructor takes the
    dump the runtime has at the moment it captures. *)

Module Eager.

Definition stackSize : nat := 4096.

(** One turn of the loop over [lines]. *)
Definition keep_line (result : list string) (line : string) : list string :=
  let trimmed := strings_TrimSpace line in
  if bool_decide (trimmed ≠ "") then result ++ [trimmed] else result.

(** [func captureStackTrace() []string] *)
Definition captureStackTrace (dump : string) : slice string :=
  let stackFrames := runtime_Stack dump stackSize in
  let lines := strings_Split stackFrames in
  slice_of (foldl keep_line [] lines).

(** [func New(code int64, message, errorType string) *Error] *)
Definition New (dump : string) (code : Z) (message errorType : string) : M ptr :=
  let! e := alloc (mkError errorType code message make0 error_nil make0) in
  let! E := load e in
  let! _ := (if (len (e_StackTraces E) =? 0)%nat
             then store e (λ E, set_StackTraces
                                  (append (e_StackTraces E) (elems (captureStackTrace dump))) E)
             else ret tt) in
  ret e.

(** [func DefaultError() *Error] *)
Definition DefaultError (dump : string) : M ptr :=
  alloc (mkError "INTERNAL_SERVER_ERROR" 500 "An internal server error occurred"
                 make0 error_nil (captureStackTrace dump)).

(** [func Wrap(err error) *Error]; [dump] is what [DefaultError]
    captures, [dump'] what [Wrap] itself would. *)
Definition Wrap (dump dump' : string) (err : error) : M ptr :=
  let! e := DefaultError dump in
  let! _ := store e (set_Err err) in
  let! E := load e in
  let! _ := (if (len (e_StackTraces E) =? 0)%nat
             then store e (set_StackTraces (captureStackTrace dump'))
             else ret tt) in
  ret e.

(** The package-level variables of the predefined errors. *)
Record Catalog := mkCatalog {
  ErrorBadRequest : ptr;
  ErrorUnauthorized : ptr;
  ErrorForbidden : ptr;
  ErrorNotFound : ptr;
  ErrorConflict : ptr;
  ErrorUnprocessableEntity : ptr;
  ErrorInternalServerError : ptr;
  ErrorPanic : ptr }.

(** Package initialisation: the [var] block, in the order it is
    written; [dumps i] is the dump at the [i]-th initialiser. *)
Definition init (dumps : nat → string) : M Catalog :=
  let! badRequest := New (dumps 0) 400 "Bad request" "BAD_REQUEST" in
  let! unauthorized := New (dumps 1) 401 "Unauthorized" "UNAUTHORIZED" in
  let! forbidden := New (dumps 2) 403 "Forbidden" "FORBIDDEN" in
  let! notFound := New (dumps 3) 404 "Not found" "NOT_FOUND" in
  let! conflict := New (dumps 4) 409 "Conflict" "CONFLICT" in
  let! unprocessable := New (dumps 5) 422 "Unprocessable entity" "UNPROCESSABLE_ENTITY" in
  let! internal := New (dumps 6) 500 "Internal server error" "INTERNAL_SERVER_ERROR" in
  let! panic := New (dumps 7) 500 "Panic" "PANIC" in
  ret (mkCatalog badRequest unauthorized forbidden notFound conflict
                 unprocessable internal panic).

(** The predefined errors, in the order of the source. *)
Definition entries (vars : Catalog) : list ptr :=
  [ErrorBadRequest vars; ErrorUnauthorized vars; ErrorForbidden vars;
   ErrorNotFound vars; ErrorConflict vars; ErrorUnprocessableEntity vars;
   ErrorInternalServerError vars; ErrorPanic vars].

(** [func Violations(violations []ValidationError) *Error] *)
Definition Violations (vars : Catalog) (dump : string)
    (violations : slice ValidationError) : M ptr :=
  let e := ErrorUnprocessableEntity vars in
  let! _ := store e (set_Violations violations) in
  let! E := load e in
  let! _ := (if (len (e_StackTraces E) =? 0)%nat
             then store e (set_StackTraces (captureStackTrace dump))
             else ret tt) in
  ret e.

End Eager.

(** ** The constructors with factory functions

    The stack is read with [runtime.Callers]; every constructor takes
    [callers], the call stack of the goroutine at the call, the frame of
    the function that calls the constructor first. *)

Module Lazy.

Definition maxFrames : nat := 32.

(** The frame of a function of this package while it calls another one
    at [line]. *)
Definition own_frame (function : string) (line : Z) : Frame :=
  mkFrame "errors.go" line ("github.com/andryhardiyanto/go-errors." ++ function)%string.

Definition Callers_frame : Frame :=
  mkFrame "runtime/extern.go" 331 "runtime.Callers".

(** [func isRelevantFrame(frame runtime.Frame) bool] *)
Definition isRelevantFrame (frame : Frame) : bool :=
  if String.prefix "runtime." (Function frame) then false
  else if String.prefix "testing." (Function frame) then false
  else true.

(** [fmt.Sprintf("%s:%d %s", frame.File, frame.Line, frame.Function)] *)
Definition render (frame : Frame) : string :=
  (File frame ++ ":" ++ pretty (Line frame) ++ " " ++ Function frame)%string.

(** The [for] loop of [captureStackTrace]: its body runs before the test
    of [more]. *)
Fixpoint collect (fuel : nat) (frames : list Frame) (result : list string) : list string :=
  match fuel with
  | O => result
  | S k =>
      let '(frame, more, rest) := frames_Next frames in
      let result := if isRelevantFrame frame then result ++ [render frame] else result in
      if negb more then result else collect k rest result
  end.

(** [func captureStackTrace(skip int) []string]; [stack] is the call
    stack with the frame of [captureStackTrace] first. *)
Definition captureStackTrace (stack : list Frame) (skip : nat) : slice string :=
  let pcs := runtime_Callers (Callers_frame :: stack) (skip + 2) maxFrames in
  let n := length pcs in
  if (n =? 0)%nat then slice_of []
  else slice_of (collect n pcs []).

(** The capture a constructor [function] makes from its line [line]. *)
Definition capture_in (function : string) (line : Z) (callers : list Frame) : slice string :=
  captureStackTrace (own_frame "captureStackTrace" 16 :: own_frame function line :: callers) 1.

(** [func New(code int64, message, errorType string) *Error] *)
Definition New (callers : list Frame) (code : Z) (message errorType : string) : M ptr :=
  let! e := alloc (mkError errorType code message make0 error_nil make0) in
  let! E := load e in
  let! _ := (if (len (e_StackTraces E) =? 0)%nat
             then store e (λ E, set_StackTraces
                                  (append (e_StackTraces E)
                                          (elems (capture_in "New" 66 callers))) E)
             else ret tt) in
  ret e.

(** [func Wrap(err error) *Error] *)
Definition Wrap (callers : list Frame) (err : error) : M ptr :=
  alloc (mkError "INTERNAL_SERVER_ERROR" 500 "An internal server error occurred"
                 make0 err (capture_in "Wrap" 79 callers)).

(** [func Violations(violations []ValidationError) *Error] *)
Definition Violations (callers : list Frame) (violations : slice ValidationError) : M ptr :=
  alloc (mkError "UNPROCESSABLE_ENTITY" 422 "Unprocessable entity"
                 violations error_nil (capture_in "Violations" 93 callers)).

Definition ErrorBadRequest (callers : list Frame) : M ptr :=
  alloc (mkError "BAD_REQUEST" 400 "Bad request"
                 make0 error_nil (capture_in "ErrorBadRequest" 106 callers)).

Definition ErrorUnauthorized (callers : list Frame) : M ptr :=
  alloc (mkError "UNAUTHORIZED" 401 "Unauthorized"
                 make0 error_nil (capture_in "ErrorUnauthorized" 117 callers)).

Definition ErrorForbidden (callers : list Frame) : M ptr :=
  alloc (mkError "FORBIDDEN" 403 "Forbidden"
                 make0 error_nil (capture_in "ErrorForbidden" 128 callers)).

Definition ErrorNotFound (callers : list Frame) : M ptr :=
  alloc (mkError "NOT_FOUND" 404 "Not found"
                 make0 error_nil (capture_in "ErrorNotFound" 139 callers)).

Definition ErrorConflict (callers : list Frame) : M ptr :=
  alloc (mkError "CONFLICT" 409 "Conflict"
                 make0 error_nil (capture_in "ErrorConflict" 150 callers)).

Definition ErrorUnprocessableEntity (callers : list Frame) : M ptr :=
  alloc (mkError "UNPROCESSABLE_ENTITY" 422 "Unprocessable entity"
                 make0 error_nil (capture_in "ErrorUnprocessableEntity" 161 callers)).

Definition ErrorInternalServerError (callers : list Frame) : M ptr :=
  alloc (mkError "INTERNAL_SERVER_ERROR" 500 "Internal server error"
                 make0 error_nil (capture_in "ErrorInternalServerError" 172 callers)).

Definition ErrorPanic (callers : list Frame) : M ptr :=
  alloc (mkError "PANIC" 500 "Panic"
                 make0 error_nil (capture_in "ErrorPanic" 183 callers)).

(** [func DefaultError() *Error] *)
Definition DefaultError (callers : list Frame) : M ptr :=
  alloc (mkError "INTERNAL_SERVER_ERROR" 500 "An internal server error occurred"
                 make0 error_nil (capture_in "DefaultError" 195 callers)).

(** A call of one of the constructors. *)
Inductive call : Type :=
| CNew (code : Z) (message errorType : string)
| CWrap (err : error)
| CViolations (violations : slice ValidationError)
| CErrorBadRequest
| CErrorUnauthorized
| CErrorForbidden
| CErrorNotFound
| CErrorConflict
| CErrorUnprocessableEntity
| CErrorInternalServerError
| CErrorPanic
| CDefaultError.

Definition run (callers : list Frame) (c : call) : M ptr :=
  match c with
  | CNew code message errorType => New callers code message errorType
  | CWrap err => Wrap callers err
  | CViolations violations => Violations callers violations
  | CErrorBadRequest => ErrorBadRequest callers
  | CErrorUnauthorized => ErrorUnauthorized callers
  | CErrorForbidden => ErrorForbidden callers
  | CErrorNotFound => ErrorNotFound callers
  | CErrorConflict => ErrorConflict callers
  | CErrorUnprocessableEntity => ErrorUnprocessableEntity callers
  | CErrorInternalServerError => ErrorInternalServerError callers
  | CErrorPanic => ErrorPanic callers
  | CDefaultError => DefaultError callers
  end.

(** The factory functions of the predefined errors, in the order of the
    source. *)
Definition factories : list call :=
  [CErrorBadRequest; CErrorUnauthorized; CErrorForbidden; CErrorNotFound;
   CErrorConflict; CErrorUnprocessableEntity; CErrorInternalServerError; CErrorPanic].

End Lazy.

(** ** Vocabulary of the properties *)

(** A store is [acyclic] when every cause that is a [*Error] was
    allocated before the struct that holds it: what the constructors
    build, since they only ever point a new struct at an older one. *)
Definition acyclic (h : heap) : Prop :=
  ∀ l E l', h !! l = Some E → e_Err E = error_Error (Some l') → l' < l.

(** An interface value whose [*Error], if any, is allocated. *)
Definition valid (h : heap) (x : error) : Prop :=
  match x with
  | error_Error (Some l) => l < length h
  | _ => True
  end.

(** The kind, code and message of a struct. *)
Definition class_of (E : Error) : string * Z * string :=
  (e_Type E, e_Code E, e_Message E).

(** The table of the predefined errors. *)
Definition catalog_table : list (string * Z * string) :=
  [("BAD_REQUEST", 400%Z, "Bad request");
   ("UNAUTHORIZED", 401%Z, "Unauthorized");
   ("FORBIDDEN", 403%Z, "Forbidden");
   ("NOT_FOUND", 404%Z, "Not found");
   ("CONFLICT", 409%Z, "Conflict");
   ("UNPROCESSABLE_ENTITY", 422%Z, "Unprocessable entity");
   ("INTERNAL_SERVER_ERROR", 500%Z, "Internal server error");
   ("PANIC", 500%Z, "Panic")].

(** The kind, code and message behind each of a list of pointers. *)
Definition classes (h : heap) (ps : list ptr) : list (option (string * Z * string)) :=
  map (λ p : ptr, match p with
                  | Some l => class_of <$> h !! l
                  | None => None
                  end) ps.

(** The struct [New] builds. *)
Definition Eager_entry (dump : string) (class : string * Z * string) : Error :=
  let '(kind, code, message) := class in
  mkError kind code message make0 error_nil (Eager.captureStackTrace dump).

(** The store and the variables package initialisation leaves behind,
    started at address [n]. *)
Definition Eager_initial (dumps : nat → string) : list Error :=
  imap (λ i class, Eager_entry (dumps i) class) catalog_table.

Definition Eager_vars (n : nat) : Eager.Catalog :=
  Eager.mkCatalog (Some n) (Some (n + 1)) (Some (n + 2)) (Some (n + 3))
                  (Some (n + 4)) (Some (n + 5)) (Some (n + 6)) (Some (n + 7)).

(** A line of a captured dump that is kept. *)
Definition nonblank (t : string) : bool := bool_decide (t ≠ "").

(** Lines joined with line feeds, as the runtime writes a dump. *)
Definition unlines (ls : list string) : string :=
  foldr (λ l r, (l ++ String newline r)%string) "" ls.

(** ** Sample inputs *)

(** The dump of a goroutine inside [captureStackTrace] called by [New]
    from a package-level initialiser. *)
Definition init_dump : string :=
  unlines ["goroutine 1 [running]:";
           "github.com/andryhardiyanto/go-errors.captureStackTrace()";
           String (Ascii.ascii_of_nat 9) "/go/pkg/mod/github.com/andryhardiyanto/go-errors/error.go:12 +0x5e";
           "github.com/andryhardiyanto/go-errors.New(...)";
           String (Ascii.ascii_of_nat 9) "/go/pkg/mod/github.com/andryhardiyanto/go-errors/error.go:38 +0x9c";
           "github.com/andryhardiyanto/go-errors.init()";
           String (Ascii.ascii_of_nat 9) "/go/pkg/mod/github.com/andryhardiyanto/go-errors/errors.go:22 +0x2d5"].

(** The dump of a goroutine inside [captureStackTrace] called by
    [Violations] from a request handler. *)
Definition handler_dump : string :=
  unlines ["goroutine 7 [running]:";
           "github.com/andryhardiyanto/go-errors.captureStackTrace()";
           String (Ascii.ascii_of_nat 9) "/go/pkg/mod/github.com/andryhardiyanto/go-errors/error.go:12 +0x5e";
           "github.com/andryhardiyanto/go-errors.Violations(...)";
           String (Ascii.ascii_of_nat 9) "/go/pkg/mod/github.com/andryhardiyanto/go-errors/error.go:62 +0x8a";
           "main.CreateUser(...)";
           String (Ascii.ascii_of_nat 9) "/app/handlers.go:41 +0x1b3"].

(** The dump of a goroutine forty calls deep in a recursive function. *)
Definition deep_dump : string :=
  unlines ("goroutine 1 [running]:"
           :: concat (replicate 40 ["main.walk(...)";
                                    String (Ascii.ascii_of_nat 9) "/app/walk.go:17 +0x3a"])).

Definition email_required : ValidationError :=
  mkValidationError ViolationErrorTypeRequired "email" "Email is required".

(** The call stack of a handler run by [main]. *)
Definition handler_stack : list Frame :=
  [mkFrame "/app/handlers.go" 41 "main.CreateUser";
   mkFrame "/app/main.go" 12 "main.main";
   mkFrame "/usr/local/go/src/runtime/proc.go" 283 "runtime.main";
   mkFrame "/usr/local/go/src/runtime/asm_amd64.s" 1700 "runtime.goexit"].

(** The call stack of a handler of a program whose module path is
    [testing.acme.io/api]: the names of its functions start with
    [testing.]. *)
Definition staging_stack : list Frame :=
  [mkFrame "/srv/api/handlers.go" 41 "testing.acme.io/api.CreateUser";
   mkFrame "/srv/api/main.go" 12 "main.main";
   mkFrame "/usr/local/go/src/runtime/proc.go" 283 "runtime.main";
   mkFrame "/usr/local/go/src/runtime/asm_amd64.s" 1700 "runtime.goexit"].

(** The error [fmt.Errorf("db down")] returns, a pointer. *)
Definition db_down : error :=
  error_foreign (Foreign "*errors.errorString" 1 by_pointer "db down").

(** The struct [Wrap(db_down)] makes, and the one [New(404, "Not found",
    "NOT_FOUND")] makes, their stack traces left empty. *)
Definition wrapping_db_down : Error :=
  mkError "INTERNAL_SERVER_ERROR" 500 "An internal server error occurred"
          make0 db_down make0.

Definition not_found : Error :=
  mkError "NOT_FOUND" 404 "Not found" make0 error_nil make0.

(** ** Vocabulary of the further properties *)

(** A call whose cause, if it is a [*Error], is allocated. *)
Definition valid_call (h : heap) (c : Lazy.call) : Prop :=
  match c with
  | Lazy.CWrap err => valid h err
  | _ => True
  end.

(** The cause a call gives the error it returns. *)
Definition cause_of (c : Lazy.call) : error :=
  match c with
  | Lazy.CWrap err => err
  | _ => error_nil
  end.

(** The trace the factory version records for a call stack. *)
Definition Lazy_trace (callers : list Frame) : slice string :=
  slice_of (map Lazy.render (List.filter Lazy.isRelevantFrame (take 32 callers))).

(** [c] wrapped [n] times, each wrapper being the cause of the next;
    [wrap i] is the [i]-th call of [Wrap]. *)
Fixpoint wrap_chain (wrap : nat → error → M ptr) (n : nat) (c : error) : M error :=
  match n with
  | O => ret c
  | S k =>
      let! x := wrap_chain wrap k c in
      let! p := wrap k x in
      ret (error_Error p)
  end.

(** Every allocated error has a description: [Error] returns on it. *)
Definition all_described (h : heap) : Prop :=
  ∀ l, l < length h → is_Some (description h (Some l)).

(** The stores a program reaches with the factory version: it starts
    with none of these errors and calls constructors, wrapping only
    errors it has. *)
Inductive Lazy_built : heap → Prop :=
| Lazy_built_start : Lazy_built []
| Lazy_built_run h callers c p h' :
    Lazy_built h → valid_call h c →
    Lazy.run callers c h = Some (p, h') → Lazy_built h'.

(** The stores a program reaches with [error.go], [vars] being the
    variables of the predefined errors: the package is initialised,
    then the program calls constructors. *)
Inductive Eager_built (vars : Eager.Catalog) : heap → Prop :=
| Eager_built_init dumps h :
    Eager.init dumps [] = Some (vars, h) → Eager_built vars h
| Eager_built_New h dump code message errorType p h' :
    Eager_built vars h →
    Eager.New dump code message errorType h = Some (p, h') → Eager_built vars h'
| Eager_built_DefaultError h dump p h' :
    Eager_built vars h →
    Eager.DefaultError dump h = Some (p, h') → Eager_built vars h'
| Eager_built_Wrap h dump dump' err p h' :
    Eager_built vars h → valid h err →
    Eager.Wrap dump dump' err h = Some (p, h') → Eager_built vars h'
| Eager_built_Violations h dump violations p h' :
    Eager_built vars h →
    Eager.Violations vars dump violations h = Some (p, h') → Eager_built vars h'.

(** One call of a constructor of the factory version, from a store to
    the next. *)
Definition Lazy_step (h h' : heap) : Prop :=
  ∃ callers c p, Lazy.run callers c h = Some (p, h').

(** One call of a constructor of [error.go] after initialisation. *)
Inductive Eager_step (vars : Eager.Catalog) : heap → heap → Prop :=
| Eager_step_New h dump code message errorType p h' :
    Eager.New dump code message errorType h = Some (p, h') → Eager_step vars h h'
| Eager_step_DefaultError h dump p h' :
    Eager.DefaultError dump h = Some (p, h') → Eager_step vars h h'
| Eager_step_Wrap h dump dump' err p h' :
    Eager.Wrap dump dump' err h = Some (p, h') → Eager_step vars h h'
| Eager_step_Violations h dump violations p h' :
    Eager.Violations vars dump violations h = Some (p, h') → Eager_step vars h h'.

(** Any number of calls, one after the other. *)
Inductive later (step : heap → heap → Prop) : heap → heap → Prop :=
| later_now h : later step h h
| later_step h h1 h2 : later step h h1 → step h1 h2 → later step h h2.

(** Two structs that differ in their stack traces at most. *)
Definition same_but_stack (E E' : Error) : Prop :=
  set_StackTraces make0 E = set_StackTraces make0 E'.

(** [len(s) == 0] *)
Definition is_nil_or_empty {A} (s : slice A) : bool := (len s =? 0)%nat.

(** A line that is not empty. *)
Definition nonempty (t : string) : bool := negb (String.eqb t "").

(** The variables and the store right after package initialisation in
    a program that has allocated no error before. *)
Definition sample_vars : Eager.Catalog := Eager_vars 0.

Definition sample_store : list Error := Eager_initial (λ _, init_dump).

Definition unprocessable : Error :=
  Eager_entry init_dump ("UNPROCESSABLE_ENTITY", 422%Z, "Unprocessable entity").

(** A dump of 2048 lines of one byte each: 4096 bytes. *)
Definition dense_dump : string := unlines (replicate 2048 "a").

(** ** Vocabulary of matching *)

(** Two interface values that are one reference: the same dynamic type
    and the same data word. *)
Definition same_reference (a b : error) : Prop :=
  match a, b with
  | error_nil, error_nil => True
  | error_Error p, error_Error q => p = q
  | error_foreign f, error_foreign g => f_type f = f_type g ∧ f_data f = f_data g
  | _, _ => False
  end.

(** The struct [Wrap(c)] makes, its stack trace left empty. *)
Definition wrapping (c : error) : Error :=
  mkError "INTERNAL_SERVER_ERROR" 500 "An internal server error occurred"
          make0 c make0.

(** Two values [valErr{"db down"}] of [type valErr struct{ msg string }],
    built one after the other, each boxed at its own address. *)
Definition val_db_down (data : N) : error :=
  error_foreign (Foreign "main.valErr" data (by_value (tuple [atom "db down"])) "db down").

(** A value of [type sliceErr []string]. *)
Definition slice_err : error :=
  error_foreign (Foreign "main.sliceErr" 0xc000012018 (by_value opaque) "a; b").

(** Another error [errors.New("db down")] returns. *)
Definition other_db_down : error :=
  error_foreign (Foreign "*errors.errorString" 2 by_pointer "db down").

(** The kind and the violations the specification gives the error a
    call returns. *)
Definition kind_of (c : Lazy.call) : string :=
  match c with
  | Lazy.CNew _ _ errorType => errorType
  | Lazy.CWrap _ | Lazy.CDefaultError | Lazy.CErrorInternalServerError =>
      "INTERNAL_SERVER_ERROR"
  | Lazy.CViolations _ | Lazy.CErrorUnprocessableEntity => "UNPROCESSABLE_ENTITY"
  | Lazy.CErrorBadRequest => "BAD_REQUEST"
  | Lazy.CErrorUnauthorized => "UNAUTHORIZED"
  | Lazy.CErrorForbidden => "FORBIDDEN"
  | Lazy.CErrorNotFound => "NOT_FOUND"
  | Lazy.CErrorConflict => "CONFLICT"
  | Lazy.CErrorPanic => "PANIC"
  end.

Definition violations_of (c : Lazy.call) : slice ValidationError :=
  match c with
  | Lazy.CViolations issues => issues
  | _ => slice_of []
  end.

(** * Properties *)

(** ** Slices *)

Lemma append_make0 {A} (xs : list A) : append make0 xs = slice_of xs.
Proof. by destruct xs. Qed.

(** ** The store *)

Lemma lookup_fresh (h : heap) (e : Error) : (h ++ [e]) !! length h = Some e.
Proof. by apply list_lookup_middle. Qed.

Lemma insert_fresh (h : heap) (e x : Error) : <[length h := x]> (h ++ [e]) = h ++ [x].
Proof. induction h as [|a h IH]; simpl; [done | by rewrite IH]. Qed.

Lemma lookup_old (h : heap) (e : Error) (l : loc) (E : Error) :
  h !! l = Some E → (h ++ [e]) !! l = Some E.
Proof. intros H. by apply lookup_app_l_Some. Qed.

Lemma fresh_unallocated (h : heap) : h !! length h = None.
Proof. by apply lookup_ge_None_2. Qed.

(** ** Chains of causes *)

Lemma acyclic_nil : acyclic [].
Proof. intros l E l' H. by rewrite lookup_nil in H. Qed.

Lemma acyclic_alloc (h : heap) (e : Error) :
  acyclic h → valid h (e_Err e) → acyclic (h ++ [e]).
Proof.
  intros Hh He l E l' Hl HE.
  destruct (decide (l < length h)) as [Hlt|Hge].
  - rewrite lookup_app_l in Hl by done. eauto.
  - rewrite lookup_app_r in Hl by lia.
    destruct (l - length h) as [|k] eqn:Hk; simpl in Hl; [|by rewrite lookup_nil in Hl].
    injection Hl as <-. rewrite HE in He. simpl in He. lia.
Qed.

(** The two branches of [Error] past the nil check. *)
Lemma Error_Error_no_cause (h : heap) (l : loc) (E : Error) (n : nat) :
  h !! l = Some E → e_Err E = error_nil →
  Error_Error (S n) h (Some l) = Some (e_Message E).
Proof. intros Hl Hc. simpl. by rewrite Hl, Hc. Qed.

Lemma Error_Error_cause (h : heap) (l : loc) (E : Error) (n : nat) :
  h !! l = Some E → e_Err E ≠ error_nil →
  Error_Error (S n) h (Some l) = error_Error_method n h (e_Err E).
Proof. intros Hl Hc. simpl. rewrite Hl. by destruct (e_Err E). Qed.

Lemma description_fresh_no_cause (h : heap) (E : Error) :
  e_Err E = error_nil → description (h ++ [E]) (Some (length h)) = Some (e_Message E).
Proof.
  intros Hc. unfold description. apply Error_Error_no_cause; [apply lookup_fresh|done].
Qed.

Section Acyclic.

Variable h : heap.
Hypothesis Hh : acyclic h.

(** Every case of the recursion of [Error] but the one that follows a
    cause to an older struct is settled on the spot. *)
Ltac follow_cause E l IH :=
  let l' := fresh "l'" in
  destruct (e_Err E) as [|[l'|]|?] eqn:?; try done;
  [ assert (l' < l) by eauto; apply IH; lia | .. ].

(** Fuel beyond the address of the receiver changes nothing. *)
Lemma Error_Error_enough (l n m : nat) :
  l < n → l < m → Error_Error n h (Some l) = Error_Error m h (Some l).
Proof.
  revert n m. induction (lt_wf l) as [l _ IH]. intros n m Hn Hm.
  destruct n as [|n]; [lia|]. destruct m as [|m]; [lia|]. simpl.
  destruct (h !! l) as [E|] eqn:Hl; [|done].
  follow_cause E l IH. by destruct n, m.
Qed.

(** [Error] returns for every allocated receiver. *)
Lemma Error_Error_total (l n : nat) :
  l < length h → l < n → is_Some (Error_Error n h (Some l)).
Proof.
  revert n. induction (lt_wf l) as [l _ IH]. intros n Hl Hn.
  destruct n as [|n]; [lia|]. simpl.
  destruct (lookup_lt_is_Some_2 h l Hl) as [E HE]. rewrite HE.
  follow_cause E l IH. by destruct n.
Qed.

Lemma description_total (l : loc) : l < length h → is_Some (description h (Some l)).
Proof. intros Hl. apply Error_Error_total; [done|lia]. Qed.

Lemma error_description_total (x : error) :
  valid h x → x ≠ error_nil → is_Some (error_description h x).
Proof.
  intros Hv Hx. destruct x as [|[l|]|f]; try done. by apply description_total.
Qed.

(** Allocation does not change what older errors say. *)
Lemma Error_Error_alloc (e : Error) (l n : nat) :
  l < length h → Error_Error n (h ++ [e]) (Some l) = Error_Error n h (Some l).
Proof.
  revert n. induction (lt_wf l) as [l _ IH]. intros n Hl.
  destruct n as [|n]; [done|]. simpl.
  rewrite lookup_app_l by done.
  destruct (h !! l) as [E|] eqn:HE; [|done].
  follow_cause E l IH. by destruct n.
Qed.

Lemma error_description_alloc (E : Error) (x : error) :
  valid h x → error_description (h ++ [E]) x = error_description h x.
Proof.
  intros Hv. destruct x as [|[l|]|f]; try done. simpl in Hv.
  unfold error_description, error_Error_method.
  rewrite Error_Error_alloc by done.
  apply Error_Error_enough; rewrite ?length_app; lia.
Qed.

(** The description of an error with a cause is that of the cause. *)
Lemma description_cause (l : loc) (E : Error) :
  h !! l = Some E → e_Err E ≠ error_nil →
  description h (Some l) = error_description h (e_Err E).
Proof.
  intros Hl Hc. unfold description, error_description.
  rewrite (Error_Error_cause _ _ _ _ Hl Hc).
  destruct (e_Err E) as [|[l'|]|f] eqn:HE; try done.
  - assert (l' < l) by eauto. assert (l < length h) by (by eapply lookup_lt_Some).
    apply Error_Error_enough; lia.
  - simpl. by destruct (length h).
Qed.

(** So is the description of a newly allocated error with a cause. *)
Lemma description_wrapped (E : Error) :
  valid h (e_Err E) → e_Err E ≠ error_nil →
  description (h ++ [E]) (Some (length h)) = error_description h (e_Err E).
Proof.
  intros Hv Hc. unfold description.
  rewrite (Error_Error_cause _ _ E _ (lookup_fresh h E) Hc).
  unfold error_description. rewrite length_app. simpl length.
  replace (length h + 1) with (S (length h)) by lia.
  destruct (e_Err E) as [|[l'|]|f]; try done. simpl in Hv.
  unfold error_Error_method. by apply Error_Error_alloc.
Qed.

End Acyclic.

(** What [Wrap] and [Is] need of the struct [Wrap] allocates. *)
Lemma wrapped_spec (h : heap) (E : Error) (c : error) :
  e_Err E = c →
  Unwrap (h ++ [E]) (Some (length h)) = Some c ∧
  (acyclic h → valid h c → c ≠ error_nil →
   ∃ s, description (h ++ [E]) (Some (length h)) = Some s ∧
        error_description (h ++ [E]) c = Some s ∧
        error_description h c = Some s).
Proof.
  intros <-. split.
  - unfold Unwrap. by rewrite lookup_fresh.
  - intros Hh Hv Hc.
    destruct (error_description_total h Hh (e_Err E) Hv Hc) as [s Hs].
    exists s. by rewrite description_wrapped, error_description_alloc.
Qed.

(** ** The constructors in closed form *)

Lemma Lazy_capture_elems (stack : list Frame) (skip : nat) :
  slice_of (elems (Lazy.captureStackTrace stack skip)) = Lazy.captureStackTrace stack skip.
Proof. unfold Lazy.captureStackTrace. by case_match. Qed.

Arguments Eager.captureStackTrace : simpl never.
Arguments Lazy.captureStackTrace : simpl never.
Arguments Lazy.capture_in : simpl never.

Lemma Eager_New_eq (dump : string) (code : Z) (message errorType : string) (h : heap) :
  Eager.New dump code message errorType h =
  Some (Some (length h),
        h ++ [mkError errorType code message make0 error_nil
                      (Eager.captureStackTrace dump)]).
Proof.
  unfold Eager.New, bind, alloc, load, store, ret. simpl.
  rewrite lookup_fresh. simpl. rewrite lookup_fresh, insert_fresh.
  unfold set_StackTraces. simpl.
  by rewrite append_make0.
Qed.

Lemma Eager_DefaultError_eq (dump : string) (h : heap) :
  Eager.DefaultError dump h =
  Some (Some (length h),
        h ++ [mkError "INTERNAL_SERVER_ERROR" 500 "An internal server error occurred"
                      make0 error_nil (Eager.captureStackTrace dump)]).
Proof. done. Qed.

Lemma Eager_Wrap_eq (dump dump' : string) (err : error) (h : heap) :
  Eager.Wrap dump dump' err h =
  Some (Some (length h),
        h ++ [mkError "INTERNAL_SERVER_ERROR" 500 "An internal server error occurred"
                      make0 err
                      (if (len (Eager.captureStackTrace dump) =? 0)%nat
                       then Eager.captureStackTrace dump'
                       else Eager.captureStackTrace dump)]).
Proof.
  unfold Eager.Wrap, bind, load, store, ret. rewrite Eager_DefaultError_eq.
  rewrite lookup_fresh, insert_fresh. simpl. rewrite lookup_fresh. simpl.
  destruct (len (Eager.captureStackTrace dump) =? 0)%nat; [|done].
  by rewrite lookup_fresh, insert_fresh.
Qed.

Lemma Eager_Violations_eq (vars : Eager.Catalog) (dump : string)
    (violations : slice ValidationError) (h : heap) (l : loc) (E : Error) :
  Eager.ErrorUnprocessableEntity vars = Some l → h !! l = Some E →
  Eager.Violations vars dump violations h =
  Some (Some l,
        <[l := mkError (e_Type E) (e_Code E) (e_Message E) violations (e_Err E)
                       (if (len (e_StackTraces E) =? 0)%nat
                        then Eager.captureStackTrace dump
                        else e_StackTraces E)]> h).
Proof.
  intros Hv Hl. assert (l < length h) by (by eapply lookup_lt_Some).
  unfold Eager.Violations, bind, load, store, ret. rewrite Hv, Hl.
  rewrite list_lookup_insert_eq by done. simpl.
  destruct (len (e_StackTraces E) =? 0)%nat; [|done].
  rewrite list_lookup_insert_eq by done. by rewrite list_insert_insert_eq.
Qed.

Lemma Lazy_New_eq (callers : list Frame) (code : Z) (message errorType : string) (h : heap) :
  Lazy.New callers code message errorType h =
  Some (Some (length h),
        h ++ [mkError errorType code message make0 error_nil
                      (Lazy.capture_in "New" 66 callers)]).
Proof.
  unfold Lazy.New, bind, alloc, load, store, ret. simpl.
  rewrite lookup_fresh. simpl. rewrite lookup_fresh, insert_fresh.
  unfold set_StackTraces. simpl.
  rewrite append_make0. unfold Lazy.capture_in. by rewrite Lazy_capture_elems.
Qed.

Lemma Eager_init_eq (dumps : nat → string) (h : heap) :
  Eager.init dumps h = Some (Eager_vars (length h), h ++ Eager_initial dumps).
Proof.
  unfold Eager.init, bind, ret.
  repeat (rewrite Eager_New_eq; cbv beta iota).
  rewrite !length_app, <- !app_assoc. simpl.
  unfold Eager_vars. do 2 f_equal. f_equal; f_equal; lia.
Qed.

Lemma Eager_initial_lookup (dumps : nat → string) (h : heap) (i : nat) (class : string * Z * string) :
  catalog_table !! i = Some class →
  (h ++ Eager_initial dumps) !! (length h + i) = Some (Eager_entry (dumps i) class).
Proof.
  intros Hi. rewrite lookup_app_r by lia.
  replace (length h + i - length h) with i by lia.
  unfold Eager_initial. by rewrite list_lookup_imap, Hi.
Qed.

(** ** Stack capture in closed form *)

Lemma keep_line_foldl (lines : list string) (result : list string) :
  foldl Eager.keep_line result lines =
  result ++ List.filter nonblank (map strings_TrimSpace lines).
Proof.
  revert result. induction lines as [|line lines IH]; intros result; simpl.
  - by rewrite app_nil_r.
  - rewrite IH. unfold Eager.keep_line, nonblank.
    destruct (bool_decide (strings_TrimSpace line ≠ "")); [|done].
    by rewrite <- app_assoc.
Qed.

Lemma Eager_captureStackTrace_eq (dump : string) :
  Eager.captureStackTrace dump =
  slice_of (List.filter nonblank
              (map strings_TrimSpace (strings_Split (String.substring 0 4096 dump)))).
Proof. unfold Eager.captureStackTrace. by rewrite keep_line_foldl. Qed.

Lemma collect_eq (frames : list Frame) (result : list string) :
  frames ≠ [] →
  Lazy.collect (length frames) frames result =
  result ++ map Lazy.render (List.filter Lazy.isRelevantFrame frames).
Proof.
  revert result. induction frames as [|f frames IH]; intros result Hne; [done|].
  simpl. destruct frames as [|g frames].
  - simpl. destruct (Lazy.isRelevantFrame f); simpl; [done | by rewrite app_nil_r].
  - rewrite bool_decide_eq_false_2 by done. simpl negb. cbv iota.
    rewrite IH by done.
    destruct (Lazy.isRelevantFrame f); simpl; [by rewrite <- app_assoc | done].
Qed.

Lemma Lazy_captureStackTrace_eq (stack : list Frame) (skip : nat) :
  Lazy.captureStackTrace stack skip =
  slice_of (map Lazy.render
              (List.filter Lazy.isRelevantFrame (take 32 (drop (skip + 1) stack)))).
Proof.
  unfold Lazy.captureStackTrace, runtime_Callers, Lazy.maxFrames.
  replace (skip + 2) with (S (skip + 1)) by lia. simpl drop.
  destruct (take 32 (drop (skip + 1) stack)) as [|f frames] eqn:Hpcs; [done|].
  change (length (f :: frames) =? 0)%nat with false. cbv iota.
  by rewrite collect_eq.
Qed.

Lemma Lazy_capture_in_eq (function : string) (line : Z) (callers : list Frame) :
  Lazy.capture_in function line callers =
  slice_of (map Lazy.render (List.filter Lazy.isRelevantFrame (take 32 callers))).
Proof. unfold Lazy.capture_in. by rewrite Lazy_captureStackTrace_eq. Qed.

Lemma capture_length_le (frames : list Frame) :
  (length (map Lazy.render (List.filter Lazy.isRelevantFrame (take 32 frames))) ≤ 32)%nat.
Proof.
  rewrite length_map.
  etrans; [apply List.filter_length_le|]. rewrite length_take. lia.
Qed.

Lemma Lazy_Violations_eq (callers : list Frame) (violations : slice ValidationError) (h : heap) :
  Lazy.Violations callers violations h =
  Some (Some (length h),
        h ++ [mkError "UNPROCESSABLE_ENTITY" 422 "Unprocessable entity" violations error_nil
                      (Lazy.capture_in "Violations" 93 callers)]).
Proof. done. Qed.

Lemma Lazy_Wrap_eq (callers : list Frame) (err : error) (h : heap) :
  Lazy.Wrap callers err h =
  Some (Some (length h),
        h ++ [mkError "INTERNAL_SERVER_ERROR" 500 "An internal server error occurred"
                      make0 err (Lazy.capture_in "Wrap" 79 callers)]).
Proof. done. Qed.

(** ** [Violations] and the predefined errors *)

(** The factory version of [Violations] allocates: the address it
    returns was not in use, and every struct of the store is as it was. *)
Lemma Lazy_Violations_frame (callers : list Frame) (violations : slice ValidationError)
    (h : heap) :
  ∃ h', Lazy.Violations callers violations h = Some (Some (length h), h') ∧
        h !! length h = None ∧
        ∀ l E, h !! l = Some E → h' !! l = Some E.
Proof.
  eexists. split; [apply Lazy_Violations_eq|]. split; [apply fresh_unallocated|].
  intros l E. apply lookup_old.
Qed.

(** The factory version of [Violations] builds the struct the
    specification describes, with the stack captured at the call. *)
Lemma Lazy_Violations_spec (callers : list Frame) (violations : slice ValidationError)
    (h : heap) :
  ∃ E, Lazy.Violations callers violations h = Some (Some (length h), h ++ [E]) ∧
       class_of E = ("UNPROCESSABLE_ENTITY", 422%Z, "Unprocessable entity") ∧
       e_Err E = error_nil ∧
       e_StackTraces E = Lazy.capture_in "Violations" 93 callers ∧
       e_Violations E = violations ∧
       len (e_Violations E) = len violations ∧
       elems (e_Violations E) = elems violations.
Proof. eexists. split; [apply Lazy_Violations_eq|]. done. Qed.

(** What [Violations] of [error.go] does once the package is
    initialised. *)
Lemma Eager_Violations_after_init (dumps : nat → string) (dump : string)
    (violations : slice ValidationError) (h : heap) :
  let vars := Eager_vars (length h) in
  let h0 := h ++ Eager_initial dumps in
  let E0 := Eager_entry (dumps 5) ("UNPROCESSABLE_ENTITY", 422%Z, "Unprocessable entity") in
  let E1 := mkError "UNPROCESSABLE_ENTITY" 422 "Unprocessable entity" violations error_nil
                    (if (len (Eager.captureStackTrace (dumps 5)) =? 0)%nat
                     then Eager.captureStackTrace dump
                     else Eager.captureStackTrace (dumps 5)) in
  Eager.init dumps h = Some (vars, h0) ∧
  h0 !! (length h + 5) = Some E0 ∧
  Eager.Violations vars dump violations h0 = Some (Some (length h + 5), <[length h + 5 := E1]> h0) ∧
  <[length h + 5 := E1]> h0 !! (length h + 5) = Some E1.
Proof.
  intros vars h0 E0 E1.
  assert (H5 : h0 !! (length h + 5) = Some E0) by (by apply Eager_initial_lookup).
  split; [apply Eager_init_eq|]. split; [done|]. split.
  - by rewrite (Eager_Violations_eq vars dump violations h0 (length h + 5) E0).
  - apply list_lookup_insert_eq. by eapply lookup_lt_Some.
Qed.

(** C1, as the code of [error.go] breaks it: [Violations] returns the
    address held by the predefined error [ErrorUnprocessableEntity]
    itself, not a new struct, and it overwrites the violations of that
    predefined error, which were the empty slice after initialisation,
    with the issues it is given. *)
Theorem Eager_Violations_overwrites_catalog_entry (dumps : nat → string) (dump : string)
    (issues : slice ValidationError) (h : heap) :
  ∃ vars h0 l E0 h1 E1,
    Eager.init dumps h = Some (vars, h0) ∧
    Eager.ErrorUnprocessableEntity vars = Some l ∧
    h0 !! l = Some E0 ∧ e_Violations E0 = make0 ∧
    Eager.Violations vars dump issues h0 = Some (Eager.ErrorUnprocessableEntity vars, h1) ∧
    h1 !! l = Some E1 ∧ e_Violations E1 = issues.
Proof.
  destruct (Eager_Violations_after_init dumps dump issues h) as (Hi & H0 & Hv & H1).
  do 6 eexists. split; [exact Hi|]. split; [done|]. split; [exact H0|].
  split; [done|]. split; [exact Hv|]. split; [exact H1|]. done.
Qed.

(** At the failing input: one issue, right after initialisation.  The
    predefined error no longer has empty violations. *)
Lemma Eager_Violations_overwrites_at_email_required :
  ∃ vars h0 h1 p,
    Eager.init (λ _, init_dump) [] = Some (vars, h0) ∧
    Eager.Violations vars handler_dump (slice_of [email_required]) h0 = Some (p, h1) ∧
    p = Eager.ErrorUnprocessableEntity vars ∧
    (e_Violations <$> h0 !! 5) = Some (slice_of []) ∧
    (e_Violations <$> h1 !! 5) = Some (slice_of [email_required]).
Proof. do 4 eexists. vm_compute. done. Qed.

(** C2, as the code of [error.go] breaks it: the struct [Violations]
    returns has the kind, code, message and violations the claim states
    and no cause, but its stack trace is the one captured when the
    package was initialised, whenever that one is not empty; at the
    sample dumps it is not the stack of the call. *)
Theorem Eager_Violations_keeps_init_stack (dumps : nat → string) (dump : string)
    (issues : slice ValidationError) (h : heap) :
  (∃ vars h0 p h1 E,
     Eager.init dumps h = Some (vars, h0) ∧
     Eager.Violations vars dump issues h0 = Some (p, h1) ∧
     load p h1 = Some (E, h1) ∧
     class_of E = ("UNPROCESSABLE_ENTITY", 422%Z, "Unprocessable entity") ∧
     e_Err E = error_nil ∧
     e_Violations E = issues ∧
     e_StackTraces E = (if (len (Eager.captureStackTrace (dumps 5)) =? 0)%nat
                        then Eager.captureStackTrace dump
                        else Eager.captureStackTrace (dumps 5))) ∧
  (∃ vars h0 p h1 E,
     Eager.init (λ _, init_dump) [] = Some (vars, h0) ∧
     Eager.Violations vars handler_dump (slice_of []) h0 = Some (p, h1) ∧
     load p h1 = Some (E, h1) ∧
     e_StackTraces E = Eager.captureStackTrace init_dump ∧
     e_StackTraces E ≠ Eager.captureStackTrace handler_dump).
Proof.
  split.
  - destruct (Eager_Violations_after_init dumps dump issues h) as (Hi & H0 & Hv & H1).
    do 5 eexists. split; [exact Hi|]. split; [exact Hv|].
    split; [unfold load; by rewrite H1|]. done.
  - do 5 eexists. vm_compute. repeat split; [done..|]. discriminate.
Qed.

(** ** The kind and the violations of a constructed error *)

Lemma Eager_entries_after_init (dumps : nat → string) (h : heap) (i : nat) (p : ptr) :
  Eager.entries (Eager_vars (length h)) !! i = Some p →
  ∃ class, catalog_table !! i = Some class ∧
           load p (h ++ Eager_initial dumps) =
           Some (Eager_entry (dumps i) class, h ++ Eager_initial dumps).
Proof.
  intros Hp.
  assert (Hi : i < 8).
  { apply lookup_lt_Some in Hp. simpl in Hp. lia. }
  destruct (lookup_lt_is_Some_2 catalog_table i) as [class Hc]; [simpl; lia|].
  exists class. split; [done|].
  assert (p = Some (length h + i)) as ->.
  { do 8 (destruct i as [|i]; [simpl in Hp; injection Hp as <-; f_equal; lia|]). lia. }
  unfold load. by rewrite (Eager_initial_lookup dumps h i class Hc).
Qed.

Lemma Lazy_run_eq (callers : list Frame) (c : Lazy.call) (h : heap) :
  ∃ E, Lazy.run callers c h = Some (Some (length h), h ++ [E]) ∧
       e_Type E = match c with
                  | Lazy.CNew _ _ errorType => errorType
                  | Lazy.CWrap _ | Lazy.CDefaultError => "INTERNAL_SERVER_ERROR"
                  | Lazy.CViolations _ | Lazy.CErrorUnprocessableEntity => "UNPROCESSABLE_ENTITY"
                  | Lazy.CErrorBadRequest => "BAD_REQUEST"
                  | Lazy.CErrorUnauthorized => "UNAUTHORIZED"
                  | Lazy.CErrorForbidden => "FORBIDDEN"
                  | Lazy.CErrorNotFound => "NOT_FOUND"
                  | Lazy.CErrorConflict => "CONFLICT"
                  | Lazy.CErrorInternalServerError => "INTERNAL_SERVER_ERROR"
                  | Lazy.CErrorPanic => "PANIC"
                  end ∧
       e_Violations E = match c with
                        | Lazy.CViolations violations => violations
                        | _ => make0
                        end.
Proof.
  destruct c; simpl; try (eexists; split; [reflexivity|done]).
  eexists. split; [apply Lazy_New_eq|done].
Qed.

(** C3, refuted as stated: [New] of [error.go] given the empty string
    as its kind returns an error whose kind is empty, and the factory
    version of [Violations] given the nil slice returns an error whose
    violations are nil. *)
Lemma constructed_kind_and_violations_counterexample :
  (∃ p h' E, Eager.New init_dump 400 "Bad request" "" [] = Some (p, h') ∧
             load p h' = Some (E, h') ∧ e_Type E = "") ∧
  (∃ p h' E, Lazy.Violations handler_stack slice_nil [] = Some (p, h') ∧
             load p h' = Some (E, h') ∧ is_nil (e_Violations E) = true).
Proof. split; do 3 eexists; vm_compute; done. Qed.

Lemma Lazy_run_exact (callers : list Frame) (c : Lazy.call) (h : heap) :
  ∃ E, Lazy.run callers c h = Some (Some (length h), h ++ [E]) ∧
       e_Type E = kind_of c ∧ e_Violations E = violations_of c.
Proof.
  destruct (Lazy_run_eq callers c h) as (E & Hrun & Hk & Hv).
  exists E. split; [done|]. rewrite Hk, Hv. by destruct c.
Qed.

(** C3, amended: an error returned by a constructor has the kind the
    constructor fixes, INTERNAL_SERVER_ERROR for [Wrap] and
    [DefaultError], UNPROCESSABLE_ENTITY for [Violations] and the kind
    of its row of the table for a predefined error, except that [New]
    gives it the kind it is passed, so its kind is empty exactly when
    [New] is passed the empty string; its violations are the non-nil
    empty slice, except that [Violations] gives it the slice it is
    passed, so they are nil exactly when [Violations] is passed nil.
    This holds of the factory version for every constructor and
    factory, and of [error.go] for [New], [Wrap], [DefaultError], the
    predefined errors as initialised and [Violations] called after
    initialisation. *)
Theorem constructed_kind_and_violations :
  (∀ callers c h,
     ∃ E, Lazy.run callers c h = Some (Some (length h), h ++ [E]) ∧
          e_Type E = kind_of c ∧
          e_Violations E = violations_of c ∧
          (e_Type E = "" ↔ ∃ code message, c = Lazy.CNew code message "") ∧
          (is_nil (e_Violations E) = true ↔ c = Lazy.CViolations slice_nil)) ∧
  (∀ dump code message errorType h,
     ∃ E, Eager.New dump code message errorType h = Some (Some (length h), h ++ [E]) ∧
          e_Type E = errorType ∧ e_Violations E = slice_of []) ∧
  (∀ dump dump' err h,
     ∃ E, Eager.Wrap dump dump' err h = Some (Some (length h), h ++ [E]) ∧
          e_Type E = "INTERNAL_SERVER_ERROR" ∧ e_Violations E = slice_of []) ∧
  (∀ dump h,
     ∃ E, Eager.DefaultError dump h = Some (Some (length h), h ++ [E]) ∧
          e_Type E = "INTERNAL_SERVER_ERROR" ∧ e_Violations E = slice_of []) ∧
  (∀ dumps h,
     ∃ vars h0, Eager.init dumps h = Some (vars, h0) ∧
       classes h0 (Eager.entries vars) = Some <$> catalog_table ∧
       Forall (λ p, ∃ E, load p h0 = Some (E, h0) ∧
                         e_Type E ≠ "" ∧ e_Violations E = slice_of [])
              (Eager.entries vars)) ∧
  (∀ dumps dump issues h,
     ∃ vars h0 p h1 E,
       Eager.init dumps h = Some (vars, h0) ∧
       Eager.Violations vars dump issues h0 = Some (p, h1) ∧
       load p h1 = Some (E, h1) ∧
       e_Type E = "UNPROCESSABLE_ENTITY" ∧ e_Violations E = issues ∧
       (is_nil (e_Violations E) = true ↔ issues = slice_nil)).
Proof.
  split; [|split; [|split; [|split; [|split]]]].
  - intros callers c h. destruct (Lazy_run_exact callers c h) as (E & Hrun & Hk & Hv).
    exists E. split; [done|]. split; [done|]. split; [done|]. rewrite Hk, Hv. split.
    + split.
      * intros Hempty. destruct c; try discriminate. simpl in Hempty.
        rewrite Hempty. by do 2 eexists.
      * intros (code & message & ->). done.
    + split.
      * intros Hnil. destruct c as [| |[|]| | | | | | | | |]; try discriminate. done.
      * intros ->. done.
  - intros. eexists. split; [apply Eager_New_eq|done].
  - intros. eexists. split; [apply Eager_Wrap_eq|done].
  - intros. eexists. split; [apply Eager_DefaultError_eq|done].
  - intros dumps h. do 2 eexists. split; [apply Eager_init_eq|]. split.
    + pose proof (λ i class, Eager_initial_lookup dumps h i class) as Hat.
      unfold classes, Eager.entries, Eager_vars. simpl map.
      pose proof (Hat 0 _ eq_refl) as H0. rewrite Nat.add_0_r in H0.
      by rewrite H0, (Hat 1 _ eq_refl), (Hat 2 _ eq_refl),
        (Hat 3 _ eq_refl), (Hat 4 _ eq_refl), (Hat 5 _ eq_refl),
        (Hat 6 _ eq_refl), (Hat 7 _ eq_refl).
    + apply Forall_lookup. intros i p Hp.
      destruct (Eager_entries_after_init dumps h i p Hp) as (class & Hc & Hload).
      eexists. split; [exact Hload|].
      assert (Hi : i < 8) by (apply lookup_lt_Some in Hc; simpl in Hc; lia).
      do 8 (destruct i as [|i]; [simpl in Hc; injection Hc as <-; done|]). lia.
  - intros dumps dump issues h.
    destruct (Eager_Violations_after_init dumps dump issues h) as (Hi & H0 & Hv & H1).
    do 5 eexists. split; [exact Hi|]. split; [exact Hv|].
    split; [unfold load; by rewrite H1|]. split; [done|]. split; [done|].
    simpl. by destruct issues.
Qed.

(** ** Matching *)

Lemma Is_structured (h : heap) (a b : loc) (A B : Error) :
  h !! a = Some A → h !! b = Some B →
  Is h (Some a) (error_Error (Some b)) = Some (String.eqb (e_Type A) (e_Type B)).
Proof. intros Ha Hb. unfold Is. by rewrite Ha, Hb. Qed.

Lemma Is_two_allocated (h : heap) (A B : Error) :
  Is ((h ++ [A]) ++ [B]) (Some (length h)) (error_Error (Some (length (h ++ [A])))) =
    Some (String.eqb (e_Type A) (e_Type B)) ∧
  Is ((h ++ [A]) ++ [B]) (Some (length (h ++ [A]))) (error_Error (Some (length h))) =
    Some (String.eqb (e_Type B) (e_Type A)).
Proof.
  assert (Ha : ((h ++ [A]) ++ [B]) !! length h = Some A)
    by apply lookup_old, lookup_fresh.
  assert (Hb : ((h ++ [A]) ++ [B]) !! length (h ++ [A]) = Some B)
    by apply lookup_fresh.
  split; by apply Is_structured.
Qed.

(** Settles [Is] between the two structs last allocated on [h]. *)
Ltac compare_kinds h :=
  match goal with
  | |- context [(h ++ [?A]) ++ [?B]] =>
      let Hab := fresh in let Hba := fresh in
      destruct (Is_two_allocated h A B) as [Hab Hba];
      split; [exact Hab|]; split; [apply String.eqb_eq|];
      split; [exact Hba|]; simpl; rewrite String.eqb_eq; naive_solver
  end.

(** C4: for two errors made by [New], whatever their codes and
    messages, [Is] of one on the other returns true if and only if
    their kinds are equal; this holds of [New] of [error.go] and of the
    factory version, in both directions. *)
Theorem Is_New_New (code1 code2 : Z) (message1 message2 kind1 kind2 : string) (h : heap) :
  (∀ dump1 dump2, ∃ a h1 b h2 r r',
     Eager.New dump1 code1 message1 kind1 h = Some (a, h1) ∧
     Eager.New dump2 code2 message2 kind2 h1 = Some (b, h2) ∧
     Is h2 a (error_Error b) = Some r ∧ (r = true ↔ kind1 = kind2) ∧
     Is h2 b (error_Error a) = Some r' ∧ (r' = true ↔ kind1 = kind2)) ∧
  (∀ callers1 callers2, ∃ a h1 b h2 r r',
     Lazy.New callers1 code1 message1 kind1 h = Some (a, h1) ∧
     Lazy.New callers2 code2 message2 kind2 h1 = Some (b, h2) ∧
     Is h2 a (error_Error b) = Some r ∧ (r = true ↔ kind1 = kind2) ∧
     Is h2 b (error_Error a) = Some r' ∧ (r' = true ↔ kind1 = kind2)).
Proof.
  split; [intros dump1 dump2 | intros callers1 callers2]; do 6 eexists.
  - split; [apply Eager_New_eq|]. split; [apply Eager_New_eq|]. compare_kinds h.
  - split; [apply Lazy_New_eq|]. split; [apply Lazy_New_eq|]. compare_kinds h.
Qed.

Lemma value_eq_plain :
  ∀ v w, plain v = true → plain w = true →
         ∃ r, value_eq v w = Some r ∧ (r = true ↔ v = w).
Proof.
  fix IH 1. intros v w Hv Hw.
  destruct v as [a| |vs|t v| |]; try done.
  - destruct w as [b| |ws|u w| |]; try done; simpl;
      try (eexists; split; [reflexivity|]; split; [done|by intros [=]]).
    all: try (exists (String.eqb a b); split; [done|]; rewrite String.eqb_eq;
              split; [congruence|by intros [=]]).
  - destruct w as [b| |ws|u w| |]; try done;
      try (eexists; split; [reflexivity|]; split; [done|by intros [=]]).
    simpl in Hv, Hw.
    assert (Hfields : ∃ r,
      (fix fields (vs ws : list govalue) {struct vs} : option bool :=
         match vs, ws with
         | [], [] => Some true
         | v' :: vs', w' :: ws' =>
             match value_eq v' w' with
             | Some true => fields vs' ws'
             | r => r
             end
         | _, _ => Some false
         end) vs ws = Some r ∧ (r = true ↔ vs = ws)).
    { revert ws Hw. induction vs as [|v vs IHvs]; intros [|w ws] Hw.
      - by exists true.
      - exists false. split; [done|]. split; [done|by intros [=]].
      - exists false. split; [done|]. split; [done|by intros [=]].
      - simpl in Hv, Hw.
        apply andb_prop in Hv as [Hv Hvs]. apply andb_prop in Hw as [Hw Hws].
        destruct (IH v w Hv Hw) as (r & -> & Hr).
        destruct r.
        + destruct (IHvs Hvs ws Hws) as (r' & -> & Hr'). exists r'. split; [done|].
          rewrite Hr'. destruct Hr as [Hr _]. rewrite (Hr eq_refl).
          split; [congruence|by intros [=]].
        + exists false. split; [done|]. split; [done|].
          intros [= Hvw _]. by apply Hr in Hvw. }
    destruct Hfields as (r & Hr & Hiff). exists r. split; [exact Hr|].
    rewrite Hiff. split; [congruence|by intros [=]].
  - destruct w as [b| |ws|u w| |]; try done;
      try (eexists; split; [reflexivity|]; split; [done|by intros [=]]).
    simpl in Hv, Hw. simpl. destruct (String.eqb t u) eqn:Htu.
    + apply String.eqb_eq in Htu as ->. destruct (IH v w Hv Hw) as (r & -> & Hr).
      exists r. split; [done|]. rewrite Hr. split; [congruence|by intros [=]].
    + exists false. split; [done|]. split; [done|].
      intros [= -> _]. by rewrite String.eqb_refl in Htu.
  - destruct w as [b| |ws|u w| |]; try done;
      try (eexists; split; [reflexivity|]; split; [done|by intros [=]]).
    all: by exists true.
Qed.

Lemma foreign_eq_types (f g : foreign) :
  f_type f ≠ f_type g → foreign_eq f g = Some false.
Proof.
  intros Hne. unfold foreign_eq.
  by rewrite (proj2 (String.eqb_neq _ _) Hne).
Qed.

Lemma foreign_eq_pointers (f g : foreign) :
  f_type f = f_type g → f_shape f = by_pointer → f_shape g = by_pointer →
  foreign_eq f g = Some (bool_decide (f_data f = f_data g)).
Proof.
  intros Ht Hf Hg. unfold foreign_eq. rewrite Ht, String.eqb_refl, Hf, Hg. simpl.
  f_equal. destruct (N.eqb_spec (f_data f) (f_data g)) as [Heq|Hne].
  - by rewrite bool_decide_eq_true_2.
  - by rewrite bool_decide_eq_false_2.
Qed.

Lemma foreign_eq_values (f g : foreign) (v w : govalue) :
  f_type f = f_type g → f_shape f = by_value v → f_shape g = by_value w →
  foreign_eq f g = value_eq v w.
Proof.
  intros Ht Hf Hg. unfold foreign_eq. by rewrite Ht, String.eqb_refl, Hf, Hg.
Qed.

(** [Is] past the type assertion: the two last branches. *)
Lemma Is_on_other (h : heap) (l : loc) (E : Error) (target : error) :
  h !! l = Some E → (∀ p, target ≠ error_Error p) →
  Is h (Some l) target =
  if error_is_nil (e_Err E) then Some false else go_eq (e_Err E) target.
Proof.
  intros Hl Hne. unfold Is. rewrite Hl.
  destruct target as [|p|f]; [|by destruct (Hne p)|];
    by destruct (error_is_nil (e_Err E)).
Qed.

(** C5, refuted as stated.  An error whose cause is a value
    [valErr{"db down"}] matches another value [valErr{"db down"}] built
    apart from it, boxed at another address: the two are equal, not one
    reference.  And an error whose cause is of a slice type does not
    return true on that very cause: the comparison panics. *)
Lemma Is_unstructured_target_counterexample :
  Is [wrapping (val_db_down 0xc000010250)] (Some 0) (val_db_down 0xc000010260) = Some true ∧
  ¬ same_reference (val_db_down 0xc000010250) (val_db_down 0xc000010260) ∧
  same_reference slice_err slice_err ∧
  Is [wrapping slice_err] (Some 0) slice_err = None.
Proof.
  split; [reflexivity|]. split; [|split; [by split|reflexivity]].
  intros [_ Hdata]. discriminate Hdata.
Qed.

(** C5, amended: on a target that is not a [*Error], [Is] of an error
    without a cause returns false, and [Is] of an error with a cause
    returns what [==] gives for the cause and the target: false when
    the target is nil, when the cause is a [*Error] and when the two
    are of different dynamic types; for two errors of one pointer
    type, whether they are the same pointer; for two errors of one
    type that is not a pointer type, whether their values are equal,
    wherever they were built (for values without not-a-number and
    without parts that are not comparable).  [Is] of the nil receiver
    returns whether the target is the nil interface. *)
Theorem Is_unstructured_target (h : heap) (l : loc) (E : Error) (target : error) :
  h !! l = Some E →
  (∀ p, target ≠ error_Error p) →
  (e_Err E = error_nil → Is h (Some l) target = Some false) ∧
  (e_Err E ≠ error_nil → Is h (Some l) target = go_eq (e_Err E) target) ∧
  (e_Err E ≠ error_nil → target = error_nil → Is h (Some l) target = Some false) ∧
  (∀ p, e_Err E = error_Error p → Is h (Some l) target = Some false) ∧
  (∀ f g, e_Err E = error_foreign f → target = error_foreign g →
     (f_type f ≠ f_type g → Is h (Some l) target = Some false) ∧
     (f_type f = f_type g → f_shape f = by_pointer → f_shape g = by_pointer →
      Is h (Some l) target = Some (bool_decide (f_data f = f_data g))) ∧
     (f_type f = f_type g →
      ∀ v w, f_shape f = by_value v → f_shape g = by_value w →
             plain v = true → plain w = true →
             ∃ r, Is h (Some l) target = Some r ∧ (r = true ↔ v = w))) ∧
  (∀ t, Is h None t = Some (error_is_nil t)).
Proof.
  intros Hl Ht. rewrite (Is_on_other h l E target Hl Ht).
  split; [by intros ->|]. split; [|split; [|split; [|split]]].
  - intros Hc. by destruct (e_Err E).
  - intros Hc ->. by destruct (e_Err E).
  - intros p ->. simpl. destruct target as [|q|g]; [done|by destruct (Ht q)|done].
  - intros f g -> ->. simpl. split; [apply foreign_eq_types|]. split.
    + apply foreign_eq_pointers.
    + intros Hty v w Hf Hg Hv Hw.
      rewrite (foreign_eq_values f g v w Hty Hf Hg). by apply value_eq_plain.
  - done.
Qed.

(** ** Description and unwrapping *)

(** C6: [Error] of the nil receiver returns the empty string; of an
    error without a cause, its message; of an error with a cause, what
    [Error] of the cause returns, at every depth of recursion and, on
    an acyclic store, as a description; so the description of an error
    made by [New], of [error.go] or of the factory version, is the
    message [New] was given. *)
Theorem Error_description (h : heap) :
  (∀ n, Error_Error n h None = Some "") ∧
  description h None = Some "" ∧
  (∀ l E, h !! l = Some E → e_Err E = error_nil →
          (∀ n, Error_Error (S n) h (Some l) = Some (e_Message E)) ∧
          description h (Some l) = Some (e_Message E)) ∧
  (∀ l E, h !! l = Some E → e_Err E ≠ error_nil →
          (∀ n, Error_Error (S n) h (Some l) = error_Error_method n h (e_Err E)) ∧
          (acyclic h → description h (Some l) = error_description h (e_Err E))) ∧
  (∀ dump code message kind,
     ∃ p h', Eager.New dump code message kind h = Some (p, h') ∧
             description h' p = Some message) ∧
  (∀ callers code message kind,
     ∃ p h', Lazy.New callers code message kind h = Some (p, h') ∧
             description h' p = Some message).
Proof.
  split; [by intros []|]. split; [done|]. split; [|split; [|split]].
  - intros l E Hl Hc. split; [intros n|]; by apply Error_Error_no_cause.
  - intros l E Hl Hc. split; [intros n; by apply Error_Error_cause|].
    intros Hh. by apply description_cause.
  - intros. do 2 eexists. split; [apply Eager_New_eq|].
    by apply description_fresh_no_cause.
  - intros. do 2 eexists. split; [apply Lazy_New_eq|].
    by apply description_fresh_no_cause.
Qed.

(** C7: [Wrap] of any cause, the nil interface included, returns a new
    error of kind INTERNAL_SERVER_ERROR, code 500 and message "An
    internal server error occurred" whose cause is the one given, and
    [Unwrap] of it returns that cause; when the cause is not nil (and is
    an allocated error of an acyclic store, if it is a [*Error]), the
    description of the wrapper returns, and is the description of the
    cause.  This holds of [Wrap] of [error.go] and of the factory
    version. *)
Theorem Wrap_spec (c : error) (h : heap) :
  (∀ dump dump',
     ∃ E, Eager.Wrap dump dump' c h = Some (Some (length h), h ++ [E]) ∧
          class_of E = ("INTERNAL_SERVER_ERROR", 500%Z, "An internal server error occurred") ∧
          e_Err E = c ∧
          Unwrap (h ++ [E]) (Some (length h)) = Some c ∧
          (acyclic h → valid h c → c ≠ error_nil →
           ∃ s, description (h ++ [E]) (Some (length h)) = Some s ∧
                error_description (h ++ [E]) c = Some s ∧
                error_description h c = Some s)) ∧
  (∀ callers,
     ∃ E, Lazy.Wrap callers c h = Some (Some (length h), h ++ [E]) ∧
          class_of E = ("INTERNAL_SERVER_ERROR", 500%Z, "An internal server error occurred") ∧
          e_Err E = c ∧
          Unwrap (h ++ [E]) (Some (length h)) = Some c ∧
          (acyclic h → valid h c → c ≠ error_nil →
           ∃ s, description (h ++ [E]) (Some (length h)) = Some s ∧
                error_description (h ++ [E]) c = Some s ∧
                error_description h c = Some s)).
Proof.
  split.
  - intros dump dump'. eexists. split; [apply Eager_Wrap_eq|].
    split; [done|]. split; [done|]. by apply wrapped_spec.
  - intros callers. eexists. split; [apply Lazy_Wrap_eq|].
    split; [done|]. split; [done|]. by apply wrapped_spec.
Qed.

Lemma Is_wrapper_on_cause (h : heap) (l : loc) (C W : Error) :
  h !! l = Some C →
  Is (h ++ [W]) (Some (length h)) (error_Error (Some l)) =
  Some (String.eqb (e_Type W) (e_Type C)).
Proof.
  intros Hl. apply Is_structured; [apply lookup_fresh | by apply lookup_old].
Qed.

(** C10: for a cause that is an allocated [*Error], [Is] of the error
    [Wrap] returns, asked about that very cause, returns true if and
    only if the kind of the cause is INTERNAL_SERVER_ERROR: the kinds
    are compared, and that the target is the cause is not looked at.
    This holds of [Wrap] of [error.go] and of the factory version. *)
Theorem Wrap_Is_structured_cause (h : heap) (l : loc) (C : Error) :
  h !! l = Some C →
  (∀ dump dump', ∃ p h' r,
     Eager.Wrap dump dump' (error_Error (Some l)) h = Some (p, h') ∧
     Unwrap h' p = Some (error_Error (Some l)) ∧
     Is h' p (error_Error (Some l)) = Some r ∧
     (r = true ↔ e_Type C = "INTERNAL_SERVER_ERROR")) ∧
  (∀ callers, ∃ p h' r,
     Lazy.Wrap callers (error_Error (Some l)) h = Some (p, h') ∧
     Unwrap h' p = Some (error_Error (Some l)) ∧
     Is h' p (error_Error (Some l)) = Some r ∧
     (r = true ↔ e_Type C = "INTERNAL_SERVER_ERROR")).
Proof.
  intros Hl. split.
  - intros dump dump'. do 3 eexists. split; [apply Eager_Wrap_eq|].
    split; [by apply wrapped_spec|].
    split; [by apply Is_wrapper_on_cause|].
    rewrite String.eqb_eq. simpl. naive_solver.
  - intros callers. do 3 eexists. split; [apply Lazy_Wrap_eq|].
    split; [by apply wrapped_spec|].
    split; [by apply Is_wrapper_on_cause|].
    rewrite String.eqb_eq. simpl. naive_solver.
Qed.

(** ** Stack capture *)

(** C8, refuted as stated.  A constructor of the factory version
    called from a function whose name starts with [testing.] records
    the frame of [main.main] first, not the frame of its caller.  The
    capture of [error.go] starts with the header of the dump and holds
    the line of [captureStackTrace] itself, and of a goroutine forty
    calls deep it returns 81 entries, more than 32. *)
Lemma captureStackTrace_counterexample :
  head (elems (Lazy.capture_in "Wrap" 79 staging_stack)) ≠
    (Lazy.render <$> head staging_stack) ∧
  head (elems (Lazy.capture_in "Wrap" 79 staging_stack)) =
    Some "/srv/api/main.go:12 main.main" ∧
  head (elems (Eager.captureStackTrace handler_dump)) = Some "goroutine 7 [running]:" ∧
  elems (Eager.captureStackTrace handler_dump) !! 1 =
    Some "github.com/andryhardiyanto/go-errors.captureStackTrace()" ∧
  len (Eager.captureStackTrace deep_dump) = 81.
Proof. vm_compute. repeat split; [discriminate | done..]. Qed.

(** C8, amended.  Stack capture is total and returns a non-nil sequence
    of strings, empty when the runtime has nothing.  The capture of the
    factory version looks at no more than 32 frames, starting after its
    own frame and [skip] further ones, which for a constructor are its
    own frame and nothing else, and records those whose function is
    neither of [runtime.] nor of [testing.]: the frame of the caller of
    the constructor is recorded first when it is such a frame, and is
    left out otherwise.  The capture of [error.go] returns the trimmed
    non-blank lines of the first 4096 bytes of the dump. *)
Theorem captureStackTrace_spec :
  (∀ stack skip,
     ∃ l, Lazy.captureStackTrace stack skip = slice_of l ∧
          l = map Lazy.render
                (List.filter Lazy.isRelevantFrame (take 32 (drop (skip + 1) stack))) ∧
          (length l ≤ 32)%nat) ∧
  (∀ function line callers,
     Lazy.capture_in function line callers =
     slice_of (map Lazy.render (List.filter Lazy.isRelevantFrame (take 32 callers)))) ∧
  (∀ function line, Lazy.capture_in function line [] = slice_of []) ∧
  (∀ function line f rest,
     Lazy.capture_in function line (f :: rest) =
     slice_of ((if Lazy.isRelevantFrame f then [Lazy.render f] else []) ++
               map Lazy.render (List.filter Lazy.isRelevantFrame (take 31 rest)))) ∧
  (∀ dump,
     Eager.captureStackTrace dump =
     slice_of (List.filter nonblank
                 (map strings_TrimSpace (strings_Split (String.substring 0 4096 dump))))) ∧
  Eager.captureStackTrace "" = slice_of [].
Proof.
  split; [|split; [|split; [|split; [|split]]]].
  - intros stack skip. eexists. split; [apply Lazy_captureStackTrace_eq|].
    split; [done|]. apply capture_length_le.
  - apply Lazy_capture_in_eq.
  - intros. by rewrite Lazy_capture_in_eq.
  - intros. rewrite Lazy_capture_in_eq. simpl.
    by destruct (Lazy.isRelevantFrame f).
  - apply Eager_captureStackTrace_eq.
  - done.
Qed.

(** ** The predefined errors and [DefaultError] *)

Lemma classes_insert (h : heap) (l : loc) (E E' : Error) (ps : list ptr) :
  h !! l = Some E → class_of E' = class_of E →
  classes (<[l := E']> h) ps = classes h ps.
Proof.
  intros Hl Hc. unfold classes. apply map_ext. intros [l'|]; [|done].
  destruct (decide (l = l')) as [<-|Hne].
  - rewrite list_lookup_insert_eq by (by eapply lookup_lt_Some).
    rewrite Hl. simpl. by rewrite Hc.
  - by rewrite list_lookup_insert_ne.
Qed.

(** [Violations] of [error.go] succeeds wherever the predefined errors
    are in place, and leaves their kinds, codes and messages alone. *)
Lemma Eager_Violations_keeps_classes (vars : Eager.Catalog) (dump : string)
    (violations : slice ValidationError) (h : heap) :
  classes h (Eager.entries vars) = Some <$> catalog_table →
  ∃ h', Eager.Violations vars dump violations h =
          Some (Eager.ErrorUnprocessableEntity vars, h') ∧
        classes h' (Eager.entries vars) = Some <$> catalog_table.
Proof.
  intros Hcl. pose proof Hcl as Hcl'. unfold classes, Eager.entries in Hcl'.
  simpl in Hcl'. injection Hcl' as _ _ _ _ _ H5 _ _.
  destruct (Eager.ErrorUnprocessableEntity vars) as [l|] eqn:Hv; [|done].
  destruct (h !! l) as [E|] eqn:Hl; [|done].
  eexists. split; [by apply (Eager_Violations_eq vars dump violations h l E)|].
  rewrite (classes_insert h l E); done.
Qed.

(** C9: after package initialisation the predefined errors of
    [error.go] have, in order, the kinds, codes and messages of the
    table, [ErrorNotFound] having code 404 and kind NOT_FOUND, and they
    keep them through calls of [Violations]; so do the errors the
    factories of the other version return;
    [DefaultError] returns a new error of code 500 and kind
    INTERNAL_SERVER_ERROR, with the kind, code and message [Wrap]
    gives, with empty non-nil violations and without a cause. *)
Theorem catalog_and_DefaultError :
  (∀ dumps h,
     ∃ vars h0, Eager.init dumps h = Some (vars, h0) ∧
       classes h0 (Eager.entries vars) = Some <$> catalog_table ∧
       ∃ l E, Eager.ErrorNotFound vars = Some l ∧ h0 !! l = Some E ∧
              e_Code E = 404%Z ∧ e_Type E = "NOT_FOUND") ∧
  (∀ vars dump issues h,
     classes h (Eager.entries vars) = Some <$> catalog_table →
     ∃ p h', Eager.Violations vars dump issues h = Some (p, h') ∧
             classes h' (Eager.entries vars) = Some <$> catalog_table) ∧
  (∀ dump h,
     ∃ E, Eager.DefaultError dump h = Some (Some (length h), h ++ [E]) ∧
          e_Code E = 500%Z ∧ e_Type E = "INTERNAL_SERVER_ERROR" ∧
          e_Violations E = slice_of [] ∧ e_Err E = error_nil ∧
          ∀ d d' c hw, ∃ W, Eager.Wrap d d' c hw = Some (Some (length hw), hw ++ [W]) ∧
                            class_of W = class_of E) ∧
  Forall2 (λ c class,
             ∀ callers h,
               ∃ E, Lazy.run callers c h = Some (Some (length h), h ++ [E]) ∧
                    class_of E = class ∧
                    e_Violations E = slice_of [] ∧ e_Err E = error_nil)
          Lazy.factories catalog_table ∧
  (∀ callers h,
     ∃ E, Lazy.DefaultError callers h = Some (Some (length h), h ++ [E]) ∧
          e_Code E = 500%Z ∧ e_Type E = "INTERNAL_SERVER_ERROR" ∧
          e_Violations E = slice_of [] ∧ e_Err E = error_nil ∧
          ∀ callers' c hw, ∃ W, Lazy.Wrap callers' c hw = Some (Some (length hw), hw ++ [W]) ∧
                                class_of W = class_of E).
Proof.
  split; [|split; [|split; [|split]]].
  2:{ intros vars dump issues h Hcl.
      destruct (Eager_Violations_keeps_classes vars dump issues h Hcl) as (h' & Hv & Hcl').
      by do 2 eexists. }
  - intros dumps h. do 2 eexists. split; [apply Eager_init_eq|].
    pose proof (λ i class, Eager_initial_lookup dumps h i class) as Hat.
    split.
    + unfold classes, Eager.entries, Eager_vars. simpl map.
      pose proof (Hat 0 _ eq_refl) as H0. rewrite Nat.add_0_r in H0.
      by rewrite H0, (Hat 1 _ eq_refl), (Hat 2 _ eq_refl),
        (Hat 3 _ eq_refl), (Hat 4 _ eq_refl), (Hat 5 _ eq_refl),
        (Hat 6 _ eq_refl), (Hat 7 _ eq_refl).
    + exists (length h + 3). eexists. split; [done|]. split; [by apply Hat|]. done.
  - intros dump h. eexists. split; [apply Eager_DefaultError_eq|].
    repeat (split; [done|]). intros. eexists. split; [apply Eager_Wrap_eq|done].
  - repeat constructor; intros; eexists; (split; [reflexivity|done]).
  - intros callers h. eexists. split; [reflexivity|].
    repeat (split; [done|]). intros. eexists. split; [apply Lazy_Wrap_eq|done].
Qed.

(** ** The scenarios of the test suite *)

Example New_matches_same_kind :
  (let! a := Eager.New init_dump 404 "Not found" "NOT_FOUND" in
   let! b := Eager.New init_dump 404 "Not found" "NOT_FOUND" in
   λ h, Some (Is h a (error_Error b), h)) [] ≫= fst = Some true.
Proof. reflexivity. Qed.

Example New_does_not_match_other_kind :
  (let! a := Eager.New init_dump 404 "Not found" "NOT_FOUND" in
   let! b := Eager.New init_dump 400 "Bad request" "BAD_REQUEST" in
   λ h, Some (Is h a (error_Error b), h)) [] ≫= fst = Some false.
Proof. reflexivity. Qed.

Example Wrap_describes_cause :
  (let! e := Eager.Wrap handler_dump handler_dump db_down in
   λ h, Some (description h e, h)) [] ≫= fst = Some "db down".
Proof. reflexivity. Qed.

Example Violations_keeps_both_issues :
  (let! e := Lazy.Violations handler_stack
               (slice_of [email_required;
                          mkValidationError ViolationErrorTypeEmail "email"
                                            "Invalid email format"]) in
   let! E := load e in
   ret (len (e_Violations E), v_Type <$> head (elems (e_Violations E)))) [] =
  Some ((2, Some ViolationErrorTypeRequired),
        [mkError "UNPROCESSABLE_ENTITY" 422 "Unprocessable entity"
                 (slice_of [email_required;
                            mkValidationError ViolationErrorTypeEmail "email"
                                              "Invalid email format"])
                 error_nil
                 (slice_of ["/app/handlers.go:41 main.CreateUser";
                            "/app/main.go:12 main.main"])]).
Proof. reflexivity. Qed.

Example TrimSpace_tab_and_nbsp :
  strings_TrimSpace
    (String (Ascii.ascii_of_nat 9)
       ("/app/walk.go:17 +0x3a " ++
        String (Ascii.ascii_of_N 0xC2) (String (Ascii.ascii_of_N 0xA0) ""))) =
  "/app/walk.go:17 +0x3a".
Proof. reflexivity. Qed.

Example Split_trailing_line_feed :
  strings_Split (unlines ["a"; "b"]) = ["a"; "b"; ""].
Proof. reflexivity. Qed.

(** [==] on values: a field that differs is found before one that
    cannot be compared is reached; not-a-number equals nothing. *)
Example value_eq_stops_at_first_difference :
  value_eq (tuple [atom "404"; box "main.sliceErr" opaque])
           (tuple [atom "500"; box "main.sliceErr" opaque]) = Some false ∧
  value_eq (tuple [atom "404"; box "main.sliceErr" opaque])
           (tuple [atom "404"; box "main.sliceErr" opaque]) = None ∧
  value_eq (tuple [atom "404"; box "main.sliceErr" opaque])
           (tuple [atom "404"; box "*errors.errorString" (atom "0xc000010250")])
    = Some false ∧
  value_eq nan nan = Some false.
Proof. repeat split. Qed.

(** ** The theorems at sample inputs *)

Lemma catalog_and_DefaultError_witness :
  ∃ vars h0 p h1,
    Eager.init (λ _, init_dump) [] = Some (vars, h0) ∧
    Eager.Violations vars handler_dump (slice_of [email_required]) h0 = Some (p, h1) ∧
    classes h1 (Eager.entries vars) = Some <$> catalog_table.
Proof.
  pose proof catalog_and_DefaultError as (Hinit & Hkeep & _).
  destruct (Hinit (λ _, init_dump) []) as (vars & h0 & Hi & Hcl & _).
  destruct (Hkeep vars handler_dump (slice_of [email_required]) h0 Hcl) as (p & h1 & Hv & Hcl1).
  by exists vars, h0, p, h1.
Defined.

Lemma Is_unstructured_target_witness :
  Is [wrapping_db_down] (Some 0) db_down = Some true ∧
  Is [wrapping_db_down] (Some 0) other_db_down = Some false ∧
  Is [wrapping (val_db_down 0xc000010250)] (Some 0) (val_db_down 0xc000010260) = Some true.
Proof.
  assert (Hns : ∀ f p, error_foreign f ≠ error_Error p) by (intros f p; discriminate).
  split; [|split].
  - destruct (Is_unstructured_target [wrapping_db_down] 0 wrapping_db_down db_down
                eq_refl (Hns _)) as (_ & _ & _ & _ & Hforeign & _).
    destruct (Hforeign _ _ eq_refl eq_refl) as (_ & Hpointers & _).
    exact (Hpointers eq_refl eq_refl eq_refl).
  - destruct (Is_unstructured_target [wrapping_db_down] 0 wrapping_db_down other_db_down
                eq_refl (Hns _)) as (_ & _ & _ & _ & Hforeign & _).
    destruct (Hforeign _ _ eq_refl eq_refl) as (_ & Hpointers & _).
    exact (Hpointers eq_refl eq_refl eq_refl).
  - destruct (Is_unstructured_target [wrapping (val_db_down 0xc000010250)] 0
                (wrapping (val_db_down 0xc000010250)) (val_db_down 0xc000010260)
                eq_refl (Hns _)) as (_ & _ & _ & _ & Hforeign & _).
    destruct (Hforeign _ _ eq_refl eq_refl) as (_ & _ & Hvalues).
    destruct (Hvalues eq_refl _ _ eq_refl eq_refl eq_refl eq_refl) as (r & -> & Hr).
    f_equal. by apply Hr.
Defined.

Lemma Error_description_witness :
  description [not_found] (Some 0) = Some "Not found" ∧
  description [wrapping_db_down] (Some 0) = Some "db down".
Proof.
  split.
  - pose proof (Error_description [not_found]) as (_ & _ & H3 & _).
    exact (proj2 (H3 0 not_found eq_refl eq_refl)).
  - pose proof (Error_description [wrapping_db_down]) as (_ & _ & _ & H4 & _).
    assert (Hc : e_Err wrapping_db_down ≠ error_nil) by discriminate.
    assert (Hh : acyclic [wrapping_db_down]) by (apply (acyclic_alloc []); [apply acyclic_nil|exact I]).
    exact (proj2 (H4 0 wrapping_db_down eq_refl Hc) Hh).
Defined.

Lemma Wrap_spec_witness :
  ∃ E, Lazy.Wrap handler_stack db_down [] = Some (Some 0, [E]) ∧
       Unwrap [E] (Some 0) = Some db_down ∧
       description [E] (Some 0) = Some "db down".
Proof.
  destruct (proj2 (Wrap_spec db_down []) handler_stack) as (E & Hw & _ & _ & Hu & Hd).
  assert (Hc : db_down ≠ error_nil) by discriminate.
  destruct (Hd acyclic_nil I Hc) as (s & Hs & _ & Hs').
  exists E. split; [exact Hw|]. split; [exact Hu|].
  exact (eq_trans Hs (eq_trans (eq_sym Hs') eq_refl)).
Defined.

Lemma Wrap_Is_structured_cause_witness :
  ∃ p h', Lazy.Wrap handler_stack (error_Error (Some 0)) [not_found] = Some (p, h') ∧
          Is h' p (error_Error (Some 0)) = Some false.
Proof.
  destruct (proj2 (Wrap_Is_structured_cause [not_found] 0 not_found eq_refl) handler_stack)
    as (p & h' & r & Hw & _ & HIs & Hiff).
  exists p, h'. split; [exact Hw|]. rewrite HIs. f_equal.
  destruct r; [|reflexivity]. destruct Hiff as [Hiff _]. discriminate (Hiff eq_refl).
Defined.

(** * Further properties of the constructors *)

(** ** Inversion and frame lemmas *)

Lemma Lazy_run_fields (callers : list Frame) (c : Lazy.call) (h : heap) :
  ∃ E, Lazy.run callers c h = Some (Some (length h), h ++ [E]) ∧
       e_Err E = cause_of c ∧
       e_StackTraces E = Lazy_trace callers ∧
       match c with
       | Lazy.CNew code message errorType =>
           class_of E = (errorType, code, message) ∧ e_Violations E = slice_of []
       | _ => True
       end.
Proof.
  destruct c; simpl;
    (eexists; split; [first [apply Lazy_New_eq | reflexivity]|]);
    simpl; by rewrite Lazy_capture_in_eq.
Qed.

Lemma Eager_Violations_inv (vars : Eager.Catalog) (dump : string)
    (violations : slice ValidationError) (h h' : heap) (p : ptr) :
  Eager.Violations vars dump violations h = Some (p, h') →
  ∃ l E, Eager.ErrorUnprocessableEntity vars = Some l ∧ h !! l = Some E ∧
         p = Some l ∧
         h' = <[l := mkError (e_Type E) (e_Code E) (e_Message E) violations (e_Err E)
                             (if (len (e_StackTraces E) =? 0)%nat
                              then Eager.captureStackTrace dump
                              else e_StackTraces E)]> h.
Proof.
  intros H.
  destruct (Eager.ErrorUnprocessableEntity vars) as [l|] eqn:Hv;
    [|unfold Eager.Violations, bind, store in H; by rewrite Hv in H].
  destruct (h !! l) as [E|] eqn:Hl;
    [|unfold Eager.Violations, bind, store in H; by rewrite Hv, Hl in H].
  rewrite (Eager_Violations_eq vars dump violations h l E Hv Hl) in H.
  injection H as <- <-. by exists l, E.
Qed.

Lemma Eager_Violations_None (vars : Eager.Catalog) (dump : string)
    (violations : slice ValidationError) (h : heap) :
  Eager.Violations vars dump violations h = None ↔
  (Eager.ErrorUnprocessableEntity vars ≫= (h !!.)) = None.
Proof.
  destruct (Eager.ErrorUnprocessableEntity vars) as [l|] eqn:Hv; simpl.
  - destruct (h !! l) as [E|] eqn:Hl.
    + by rewrite (Eager_Violations_eq vars dump violations h l E Hv Hl).
    + unfold Eager.Violations, bind, store. by rewrite Hv, Hl.
  - unfold Eager.Violations, bind, store. by rewrite Hv.
Qed.

(** ** What the constructors allocate and record *)

(** X1: every constructor and factory of the factory version succeeds,
    returns an address that was not in use and leaves every struct of
    the store as it was; the trace it records depends on the call
    stack of its caller only, not on which constructor it is: it is
    the rendering of the relevant frames among the first 32 of that
    stack; the cause of the new error is the one [Wrap] was given and
    nil for every other constructor. *)
Theorem Lazy_constructors_allocate (callers : list Frame) (c : Lazy.call) (h : heap) :
  ∃ E, Lazy.run callers c h = Some (Some (length h), h ++ [E]) ∧
       h !! length h = None ∧
       (∀ l E', h !! l = Some E' → (h ++ [E]) !! l = Some E') ∧
       e_StackTraces E = Lazy_trace callers ∧
       e_Err E = cause_of c.
Proof.
  destruct (Lazy_run_fields callers c h) as (E & Hrun & Hc & Ht & _).
  exists E. split; [done|]. split; [apply fresh_unallocated|].
  split; [intros l E'; apply lookup_old|done].
Qed.

(** X2: [New], of [error.go] and of the factory version, returns a new
    error with exactly the kind, code and message it is given, empty
    non-nil violations, no cause, and the stack captured at the call:
    the guard on the length of the stack trace never skips the capture.
    It touches no struct of the store. *)
Theorem New_spec (code : Z) (message errorType : string) (h : heap) :
  (∀ dump,
     ∃ E, Eager.New dump code message errorType h = Some (Some (length h), h ++ [E]) ∧
          E = mkError errorType code message (slice_of []) error_nil
                      (Eager.captureStackTrace dump)) ∧
  (∀ callers,
     ∃ E, Lazy.New callers code message errorType h = Some (Some (length h), h ++ [E]) ∧
          E = mkError errorType code message (slice_of []) error_nil
                      (Lazy_trace callers)) ∧
  h !! length h = None ∧
  (∀ E l E', h !! l = Some E' → (h ++ [E]) !! l = Some E').
Proof.
  split; [|split; [|split]].
  - intros dump. eexists. split; [apply Eager_New_eq|done].
  - intros callers. eexists. split; [apply Lazy_New_eq|].
    by rewrite Lazy_capture_in_eq.
  - apply fresh_unallocated.
  - intros E l E'. apply lookup_old.
Qed.

(** X3: the stack trace of the error [Wrap] of [error.go] returns is the
    one [DefaultError] captured for it, one call deeper than [Wrap];
    [Wrap] captures on its own only when that one is empty.  [Wrap] and
    [DefaultError] touch no struct of the store. *)
Theorem Eager_Wrap_stack (dump dump' : string) (err : error) (h : heap) :
  ∃ D W,
    Eager.DefaultError dump h = Some (Some (length h), h ++ [D]) ∧
    Eager.Wrap dump dump' err h = Some (Some (length h), h ++ [W]) ∧
    W = set_StackTraces (if is_nil_or_empty (e_StackTraces D)
                         then Eager.captureStackTrace dump'
                         else e_StackTraces D)
                        (set_Err err D) ∧
    e_StackTraces D = Eager.captureStackTrace dump ∧
    (elems (Eager.captureStackTrace dump) ≠ [] → e_StackTraces W = e_StackTraces D).
Proof.
  do 2 eexists. split; [apply Eager_DefaultError_eq|].
  split; [apply Eager_Wrap_eq|]. unfold is_nil_or_empty, len. simpl.
  split; [done|]. split; [done|].
  intros Hne. by destruct (foldl Eager.keep_line [] _).
Qed.

(** ** [Violations] of [error.go] on the store *)

(** X4: [Violations] of [error.go] panics exactly when the variable
    [ErrorUnprocessableEntity] holds no allocated struct.  When it
    returns, it has allocated nothing, it returns the pointer of that
    variable, every other struct of the store is as it was, and of the
    struct it points to the kind, code, message and cause are as they
    were, the violations are the ones given, and the stack trace is
    captured only if it was empty. *)
Theorem Eager_Violations_frame (vars : Eager.Catalog) (dump : string)
    (issues : slice ValidationError) (h : heap) :
  (Eager.Violations vars dump issues h = None ↔
   (Eager.ErrorUnprocessableEntity vars ≫= (h !!.)) = None) ∧
  (∀ p h', Eager.Violations vars dump issues h = Some (p, h') →
     p = Eager.ErrorUnprocessableEntity vars ∧
     length h' = length h ∧
     (∀ l, Some l ≠ p → h' !! l = h !! l) ∧
     ∃ l E E', p = Some l ∧ h !! l = Some E ∧ h' !! l = Some E' ∧
               class_of E' = class_of E ∧ e_Err E' = e_Err E ∧
               e_Violations E' = issues ∧
               e_StackTraces E' = (if is_nil_or_empty (e_StackTraces E)
                                   then Eager.captureStackTrace dump
                                   else e_StackTraces E)).
Proof.
  split; [apply Eager_Violations_None|].
  intros p h' H. apply Eager_Violations_inv in H as (l & E & Hv & Hl & -> & ->).
  assert (l < length h) by (by eapply lookup_lt_Some).
  split; [done|]. split; [apply length_insert|]. split.
  - intros l' Hne. apply list_lookup_insert_ne. congruence.
  - do 3 eexists. split; [done|]. split; [done|].
    split; [by apply list_lookup_insert_eq|]. done.
Qed.

(** X5: two calls of [Violations] of [error.go] return the same
    pointer, so the error the first call returned carries the issues of
    the second call, not its own; its stack trace is the first capture
    that was not empty, counting the one the struct had. *)
Theorem Eager_Violations_twice (vars : Eager.Catalog) (dump1 dump2 : string)
    (issues1 issues2 : slice ValidationError) (h : heap) (l : loc) (E : Error) :
  Eager.ErrorUnprocessableEntity vars = Some l → h !! l = Some E →
  ∃ h1 h2 E1 E2,
    Eager.Violations vars dump1 issues1 h = Some (Some l, h1) ∧
    Eager.Violations vars dump2 issues2 h1 = Some (Some l, h2) ∧
    h1 !! l = Some E1 ∧ e_Violations E1 = issues1 ∧
    h2 !! l = Some E2 ∧ e_Violations E2 = issues2 ∧
    e_StackTraces E2 =
      (if is_nil_or_empty (e_StackTraces E)
       then if is_nil_or_empty (Eager.captureStackTrace dump1)
            then Eager.captureStackTrace dump2
            else Eager.captureStackTrace dump1
       else e_StackTraces E).
Proof.
  intros Hv Hl. assert (l < length h) by (by eapply lookup_lt_Some).
  do 4 eexists.
  split; [by apply (Eager_Violations_eq vars dump1 issues1 h l E)|].
  split; [apply (Eager_Violations_eq vars dump2 issues2 _ l); [done|by apply list_lookup_insert_eq]|].
  split; [by apply list_lookup_insert_eq|]. split; [done|].
  split; [apply list_lookup_insert_eq; by rewrite length_insert|]. split; [done|].
  unfold is_nil_or_empty. simpl.
  destruct (len (e_StackTraces E) =? 0)%nat eqn:Hempty; [done|by rewrite Hempty].
Qed.

Lemma Error_Error_insert (h : heap) (l : loc) (E E' : Error) :
  h !! l = Some E → e_Message E' = e_Message E → e_Err E' = e_Err E →
  ∀ n p, Error_Error n (<[l := E']> h) p = Error_Error n h p.
Proof.
  intros Hl Hm Hc n. assert (l < length h) by (by eapply lookup_lt_Some).
  induction n as [|n IH]; intros [q|]; simpl; try done.
  destruct (decide (l = q)) as [<-|Hne].
  - rewrite list_lookup_insert_eq, Hl, Hm, Hc by done. by destruct (e_Err E).
  - rewrite list_lookup_insert_ne by done.
    destruct (h !! q) as [Q|]; [|done]. by destruct (e_Err Q).
Qed.

Lemma lookup_insert_field {B} (f : Error → B) (h : heap) (l : loc) (E E' : Error) (q : loc) :
  h !! l = Some E → f E' = f E → f <$> <[l := E']> h !! q = f <$> h !! q.
Proof.
  intros Hl Hf. assert (l < length h) by (by eapply lookup_lt_Some).
  destruct (decide (l = q)) as [<-|Hne].
  - rewrite list_lookup_insert_eq, Hl by done. simpl. by rewrite Hf.
  - by rewrite list_lookup_insert_ne.
Qed.

Lemma Is_insert (h : heap) (l : loc) (E E' : Error) :
  h !! l = Some E → e_Type E' = e_Type E → e_Err E' = e_Err E →
  ∀ p target, Is (<[l := E']> h) p target = Is h p target.
Proof.
  intros Hl Ht Hc [q|] target; [|done]. unfold Is.
  assert (Hq : (λ X, (e_Type X, e_Err X)) <$> <[l := E']> h !! q =
               (λ X, (e_Type X, e_Err X)) <$> h !! q)
    by (apply (lookup_insert_field _ h l E E' q Hl); by rewrite Ht, Hc).
  destruct (<[l := E']> h !! q) as [Q'|], (h !! q) as [Q|]; try done.
  injection Hq as -> ->.
  destruct target as [|[t|]|f]; try done.
  assert (Htt : e_Type <$> <[l := E']> h !! t = e_Type <$> h !! t)
    by (by apply (lookup_insert_field _ h l E E' t Hl)).
  destruct (<[l := E']> h !! t) as [T'|], (h !! t) as [T|]; try done.
  simpl in *. injection Htt as ->. done.
Qed.

Lemma acyclic_insert (h : heap) (l : loc) (E E' : Error) :
  acyclic h → h !! l = Some E → e_Err E' = e_Err E → acyclic (<[l := E']> h).
Proof.
  intros Hh Hl Hc q Q q' Hq HQ.
  assert (l < length h) by (by eapply lookup_lt_Some).
  destruct (decide (l = q)) as [<-|Hne].
  - rewrite list_lookup_insert_eq in Hq by done. injection Hq as <-.
    rewrite Hc in HQ. eauto.
  - rewrite list_lookup_insert_ne in Hq by done. eauto.
Qed.

(** X6: a call of [Violations] of [error.go] that returns changes what
    no error of the store says, unwraps to or matches: descriptions,
    [Unwrap] and [Is] give what they gave before, for every receiver
    and target, and an acyclic store stays acyclic. *)
Theorem Eager_Violations_keeps_observations (vars : Eager.Catalog) (dump : string)
    (issues : slice ValidationError) (h h' : heap) (p : ptr) :
  Eager.Violations vars dump issues h = Some (p, h') →
  (∀ q, description h' q = description h q) ∧
  (∀ q, Unwrap h' q = Unwrap h q) ∧
  (∀ q target, Is h' q target = Is h q target) ∧
  (acyclic h → acyclic h').
Proof.
  intros H. apply Eager_Violations_inv in H as (l & E & Hv & Hl & -> & ->).
  split; [|split; [|split]].
  - intros q. unfold description. rewrite length_insert.
    by apply (Error_Error_insert h l E).
  - intros [q|]; [|done]. simpl. by apply (lookup_insert_field e_Err h l E).
  - by apply (Is_insert h l E).
  - intros Hh. by apply (acyclic_insert h l E).
Qed.

(** ** [Is] as a relation *)

(** X7: on the allocated errors of a store, [Is] with a [*Error] target
    is an equivalence: every error matches itself, [a.Is(b)] and
    [b.Is(a)] agree, and if [a] matches [b] and [b] matches [c] then
    [a] matches [c]. *)
Theorem Is_equivalence (h : heap) (a b c : loc) (A B C : Error) :
  h !! a = Some A → h !! b = Some B → h !! c = Some C →
  Is h (Some a) (error_Error (Some a)) = Some true ∧
  Is h (Some a) (error_Error (Some b)) = Is h (Some b) (error_Error (Some a)) ∧
  (Is h (Some a) (error_Error (Some b)) = Some true →
   Is h (Some b) (error_Error (Some c)) = Some true →
   Is h (Some a) (error_Error (Some c)) = Some true).
Proof.
  intros Ha Hb Hc.
  rewrite (Is_structured h a a A A), (Is_structured h a b A B),
    (Is_structured h b a B A), (Is_structured h b c B C),
    (Is_structured h a c A C) by done.
  split; [by rewrite String.eqb_refl|]. split; [by rewrite String.eqb_sym|].
  intros [= Hab%String.eqb_eq] [= Hbc%String.eqb_eq].
  f_equal. apply String.eqb_eq. congruence.
Qed.

(** X8: [Is] of an allocated error panics in exactly two cases.  One
    is a target that holds a nil [*Error]: the type assertion succeeds
    and the kind of the nil pointer is read.  The other is a foreign
    target when the cause is a foreign error of the same dynamic type,
    not a pointer type, and [==] panics on their two values, as it does
    on a type that is not comparable and never does on values without
    such parts.  On every other target whose pointer, if any, is
    allocated, [Is] returns. *)
Theorem Is_panics_exactly (h : heap) (l : loc) (E : Error) (target : error) :
  h !! l = Some E → valid h target →
  (Is h (Some l) target = None ↔
   target = error_Error None ∨
   ∃ f g v w, e_Err E = error_foreign f ∧ target = error_foreign g ∧
              f_type f = f_type g ∧
              f_shape f = by_value v ∧ f_shape g = by_value w ∧
              value_eq v w = None) ∧
  (∀ w, value_eq opaque w = None) ∧
  (∀ v w, plain v = true → plain w = true → value_eq v w ≠ None).
Proof.
  intros Hl Hv. split; [|split].
  - destruct target as [|[t|]|g].
    + rewrite (Is_on_other h l E error_nil Hl) by done. split.
      * by destruct (e_Err E).
      * intros [[=]|(f & g & v & w & _ & [=] & _)].
    + simpl in Hv. destruct (lookup_lt_is_Some_2 h t Hv) as [T HT].
      rewrite (Is_structured h l t E T Hl HT). split; [done|].
      intros [[=]|(f & g & v & w & _ & [=] & _)].
    + split; [by left|]. intros _. unfold Is. by rewrite Hl.
    + rewrite (Is_on_other h l E (error_foreign g) Hl) by done. split.
      * intros Hnone. right. destruct (e_Err E) as [|p|f]; try done. simpl in Hnone.
        unfold foreign_eq in Hnone.
        destruct (String.eqb (f_type f) (f_type g)) eqn:Hty; [|done].
        apply String.eqb_eq in Hty. simpl in Hnone.
        destruct (f_shape f) as [|v] eqn:Hf, (f_shape g) as [|w] eqn:Hg; try done.
        by exists f, g, v, w.
      * intros [[=]|(f & g' & v & w & -> & [= <-] & Hty & Hf & Hg & Hnone)]. simpl.
        by rewrite (foreign_eq_values f g v w Hty Hf Hg).
  - by intros [].
  - intros v w Hpv Hpw. by destruct (value_eq_plain v w Hpv Hpw) as (r & -> & _).
Qed.

Lemma Is_fresh_other (h : heap) (W : Error) (target : error) :
  (∀ p, target ≠ error_Error p) →
  Is (h ++ [W]) (Some (length h)) target =
  if error_is_nil (e_Err W) then Some false else go_eq (e_Err W) target.
Proof. intros Hne. apply Is_on_other; [apply lookup_fresh|done]. Qed.

(** X9: [Is] of an error made by [Wrap] from a foreign error, asked
    about a foreign error, returns what [==] gives for the two, and
    panics where it does: two errors of pointer types match exactly
    when they have the same type and are the same pointer, so an error
    of [errors.New] matches itself and no other; such an error does not
    match nil; an error made by [Wrap(nil)] matches neither nil nor any
    foreign error.  This holds of [Wrap] of [error.go] and of the
    factory version. *)
Theorem Wrap_Is_foreign (f f' : foreign) (h : heap) :
  let matches (wrap : error → M ptr) (c target : error) :=
    wrap c h ≫= λ '(p, h'), Is h' p target in
  (∀ dump dump',
     matches (Eager.Wrap dump dump') (error_foreign f) (error_foreign f')
       = foreign_eq f f' ∧
     matches (Eager.Wrap dump dump') (error_foreign f) error_nil = Some false ∧
     matches (Eager.Wrap dump dump') error_nil error_nil = Some false ∧
     matches (Eager.Wrap dump dump') error_nil (error_foreign f') = Some false) ∧
  (∀ callers,
     matches (Lazy.Wrap callers) (error_foreign f) (error_foreign f')
       = foreign_eq f f' ∧
     matches (Lazy.Wrap callers) (error_foreign f) error_nil = Some false ∧
     matches (Lazy.Wrap callers) error_nil error_nil = Some false ∧
     matches (Lazy.Wrap callers) error_nil (error_foreign f') = Some false) ∧
  (f_shape f = by_pointer → f_shape f' = by_pointer →
   foreign_eq f f' = Some (String.eqb (f_type f) (f_type f') && N.eqb (f_data f) (f_data f'))) ∧
  (f_shape f = by_pointer → foreign_eq f f = Some true).
Proof.
  intros matches. split; [|split; [|split]].
  - intros. unfold matches. rewrite !Eager_Wrap_eq. cbn [mbind option_bind].
    by rewrite !Is_fresh_other.
  - intros. unfold matches. rewrite !Lazy_Wrap_eq. cbn [mbind option_bind].
    by rewrite !Is_fresh_other.
  - intros Hf Hf'. unfold foreign_eq. rewrite Hf, Hf'.
    by destruct (String.eqb (f_type f) (f_type f')).
  - intros Hf. unfold foreign_eq. by rewrite Hf, String.eqb_refl, N.eqb_refl.
Qed.

(** ** Descriptions through [Wrap] *)

(** X10: at the edges of [Wrap], in both versions: the error
    [Wrap(nil)] returns describes itself by its own message, "An
    internal server error occurred", and unwraps to nil, whereas the
    error [Wrap] returns for an interface that holds a nil [*Error]
    has the empty description, its own message being hidden by the
    cause. *)
Theorem Wrap_edge_descriptions (h : heap) :
  let describes (wrap : error → M ptr) (c : error) :=
    wrap c h ≫= λ '(p, h'), description h' p in
  let unwraps (wrap : error → M ptr) (c : error) :=
    wrap c h ≫= λ '(p, h'), Unwrap h' p in
  (∀ dump dump',
     describes (Eager.Wrap dump dump') error_nil = Some "An internal server error occurred" ∧
     unwraps (Eager.Wrap dump dump') error_nil = Some error_nil ∧
     describes (Eager.Wrap dump dump') (error_Error None) = Some "" ∧
     unwraps (Eager.Wrap dump dump') (error_Error None) = Some (error_Error None)) ∧
  (∀ callers,
     describes (Lazy.Wrap callers) error_nil = Some "An internal server error occurred" ∧
     unwraps (Lazy.Wrap callers) error_nil = Some error_nil ∧
     describes (Lazy.Wrap callers) (error_Error None) = Some "" ∧
     unwraps (Lazy.Wrap callers) (error_Error None) = Some (error_Error None)).
Proof.
  intros describes unwraps.
  split; intros; unfold describes, unwraps;
    rewrite ?Eager_Wrap_eq, ?Lazy_Wrap_eq; cbn [mbind option_bind Unwrap];
    rewrite ?lookup_fresh;
    (split; [by apply description_fresh_no_cause|]); (split; [done|]);
    (split; [|done]); unfold description;
    rewrite (Error_Error_cause _ _ _ _ (lookup_fresh _ _)) by done; simpl;
    by destruct (length _).
Qed.

Section WrapChain.

Variable wrap : nat → error → M ptr.
Hypothesis wrap_eq :
  ∀ i c h, ∃ E, wrap i c h = Some (Some (length h), h ++ [E]) ∧ e_Err E = c.

Lemma wrap_chain_inv (n : nat) (c : error) (h : heap) :
  acyclic h → valid h c → c ≠ error_nil →
  ∃ x h', wrap_chain wrap n c h = Some (x, h') ∧
          acyclic h' ∧ valid h' x ∧ x ≠ error_nil ∧
          length h' = length h + n ∧
          error_description h' x = error_description h c.
Proof.
  intros Hh Hv Hc. induction n as [|n IH].
  - exists c, h. repeat split; try done; lia.
  - destruct IH as (x & h1 & Hrun & Hh1 & Hv1 & Hx & Hlen & Hd).
    destruct (wrap_eq n x h1) as (E & Hw & HE).
    exists (error_Error (Some (length h1))), (h1 ++ [E]).
    split; [simpl; unfold bind; by rewrite Hrun, Hw|].
    split; [apply acyclic_alloc; [done|by rewrite HE]|].
    split; [simpl; rewrite length_app; simpl; lia|].
    split; [done|].
    split; [rewrite length_app; simpl; lia|].
    rewrite <- Hd, <- HE.
    apply (description_wrapped h1 Hh1 E); by rewrite HE.
Qed.

End WrapChain.

(** X11: wrapping is transparent to the description however deep: an
    error that is not nil (and is allocated in an acyclic store, if it
    is a [*Error]), wrapped by [Wrap] any number of times, each
    wrapper being the cause of the next, has a description, the one
    it had before; each call of [Wrap] allocates one struct.  This
    holds of [Wrap] of [error.go] and of the factory version. *)
Theorem wrap_chain_description (n : nat) (c : error) (h : heap) :
  acyclic h → valid h c → c ≠ error_nil →
  is_Some (error_description h c) ∧
  (∀ dumps dumps',
     ∃ x h', wrap_chain (λ i, Eager.Wrap (dumps i) (dumps' i)) n c h = Some (x, h') ∧
             length h' = length h + n ∧
             error_description h' x = error_description h c) ∧
  (∀ stacks,
     ∃ x h', wrap_chain (λ i, Lazy.Wrap (stacks i)) n c h = Some (x, h') ∧
             length h' = length h + n ∧
             error_description h' x = error_description h c).
Proof.
  intros Hh Hv Hc. split; [by apply error_description_total|]. split.
  - intros dumps dumps'.
    destruct (wrap_chain_inv (λ i, Eager.Wrap (dumps i) (dumps' i))) with (n := n) (c := c) (h := h)
      as (x & h' & Hrun & _ & _ & _ & Hlen & Hd); try done.
    { intros i c0 h0. eexists. split; [apply Eager_Wrap_eq|done]. }
    by exists x, h'.
  - intros stacks.
    destruct (wrap_chain_inv (λ i, Lazy.Wrap (stacks i))) with (n := n) (c := c) (h := h)
      as (x & h' & Hrun & _ & _ & _ & Hlen & Hd); try done.
    { intros i c0 h0. eexists. split; [apply Lazy_Wrap_eq|done]. }
    by exists x, h'.
Qed.

(** ** Invariants of the stores the constructors build *)

Lemma all_described_acyclic (h : heap) : acyclic h → all_described h.
Proof. intros Hh l Hl. by apply description_total. Qed.

Lemma acyclic_app_no_cause (h es : heap) :
  acyclic h → Forall (λ E, e_Err E = error_nil) es → acyclic (h ++ es).
Proof.
  intros Hh Hes l E l' Hl HE.
  destruct (decide (l < length h)) as [Hlt|Hge].
  - rewrite lookup_app_l in Hl by done. eauto.
  - rewrite lookup_app_r in Hl by lia.
    apply list_elem_of_lookup_2 in Hl.
    rewrite Forall_forall in Hes. apply Hes in Hl. congruence.
Qed.

Lemma classes_app (h es : heap) (ps : list ptr) (t : list (string * Z * string)) :
  classes h ps = Some <$> t → classes (h ++ es) ps = Some <$> t.
Proof.
  revert t. induction ps as [|p ps IH]; intros [|c t]; simpl; try done.
  intros [= Hp Hps]. f_equal; [|by apply IH].
  destruct p as [l|]; [|done].
  destruct (h !! l) as [E|] eqn:Hl; [|done].
  by rewrite (lookup_app_l_Some _ _ _ _ Hl).
Qed.

Lemma Eager_init_classes (dumps : nat → string) (h : heap) :
  classes (h ++ Eager_initial dumps) (Eager.entries (Eager_vars (length h))) =
  Some <$> catalog_table.
Proof.
  pose proof (λ i class, Eager_initial_lookup dumps h i class) as Hat.
  unfold classes, Eager.entries, Eager_vars. simpl map.
  pose proof (Hat 0 _ eq_refl) as H0. rewrite Nat.add_0_r in H0.
  by rewrite H0, (Hat 1 _ eq_refl), (Hat 2 _ eq_refl),
    (Hat 3 _ eq_refl), (Hat 4 _ eq_refl), (Hat 5 _ eq_refl),
    (Hat 6 _ eq_refl), (Hat 7 _ eq_refl).
Qed.

(** X12: in every store a program reaches with [error.go] (package
    initialisation, then any calls of [New], [DefaultError], [Wrap] of
    an error it has, and [Violations]), the store is acyclic, so
    every allocated error has a description; the predefined errors
    have the kinds, codes and messages of the table; and [Violations]
    does not panic. *)
Theorem Eager_built_invariant (vars : Eager.Catalog) (h : heap) :
  Eager_built vars h →
  acyclic h ∧ all_described h ∧
  classes h (Eager.entries vars) = Some <$> catalog_table ∧
  ∀ dump issues, is_Some (Eager.Violations vars dump issues h).
Proof.
  intros Hb.
  assert (Hinv : acyclic h ∧ classes h (Eager.entries vars) = Some <$> catalog_table).
  { induction Hb as [dumps h Hi | h dump code message kind p h' _ [IH1 IH2] Hrun
                    | h dump p h' _ [IH1 IH2] Hrun
                    | h dump dump' err p h' _ [IH1 IH2] Hv Hrun
                    | h dump violations p h' _ [IH1 IH2] Hrun].
    - rewrite Eager_init_eq in Hi. injection Hi as <- <-. split.
      + apply (acyclic_app_no_cause []); [apply acyclic_nil|].
        unfold Eager_initial, catalog_table. simpl. by repeat constructor.
      + apply (Eager_init_classes dumps []).
    - rewrite Eager_New_eq in Hrun. injection Hrun as <- <-.
      split; [by apply acyclic_alloc|by apply classes_app].
    - rewrite Eager_DefaultError_eq in Hrun. injection Hrun as <- <-.
      split; [by apply acyclic_alloc|by apply classes_app].
    - rewrite Eager_Wrap_eq in Hrun. injection Hrun as <- <-.
      split; [by apply acyclic_alloc|by apply classes_app].
    - destruct (Eager_Violations_keeps_classes vars dump violations h IH2) as (h2 & Hv2 & Hc2).
      rewrite Hv2 in Hrun. injection Hrun as <- <-. split; [|done].
      apply Eager_Violations_inv in Hv2 as (l & E & _ & Hl & _ & ->).
      by apply (acyclic_insert h l E). }
  destruct Hinv as [Hh Hcl].
  split; [done|]. split; [by apply all_described_acyclic|]. split; [done|].
  intros dump issues.
  destruct (Eager_Violations_keeps_classes vars dump issues h Hcl) as (h2 & -> & _).
  by eexists.
Qed.

(** X13: in every store a program reaches with the factory version
    (any calls of the constructors and factories, [Wrap] being given
    only errors the program has), the store is acyclic, so every
    allocated error has a description, and a further call succeeds and
    changes the description of no error already there. *)
Theorem Lazy_built_invariant (h : heap) :
  Lazy_built h →
  acyclic h ∧ all_described h ∧
  ∀ callers c, ∃ p h',
    Lazy.run callers c h = Some (p, h') ∧
    ∀ l, l < length h → description h' (Some l) = description h (Some l).
Proof.
  intros Hb.
  assert (Hh : acyclic h).
  { induction Hb as [|h callers c p h' _ IH Hv Hrun]; [apply acyclic_nil|].
    destruct (Lazy_run_fields callers c h) as (E & HE & Hc & _).
    rewrite HE in Hrun. injection Hrun as <- <-.
    apply acyclic_alloc; [done|]. rewrite Hc. by destruct c. }
  split; [done|]. split; [by apply all_described_acyclic|].
  intros callers c. destruct (Lazy_run_fields callers c h) as (E & HE & _).
  do 2 eexists. split; [exact HE|].
  intros l Hl. unfold description. rewrite Error_Error_alloc by done.
  apply Error_Error_enough; [done|rewrite ?length_app; lia..].
Qed.

(** ** The predefined errors among themselves *)

Lemma classes_lookup (h : heap) (ps : list ptr) (t : list (string * Z * string))
    (i : nat) (p : ptr) :
  classes h ps = Some <$> t → ps !! i = Some p →
  ∃ l E class, p = Some l ∧ h !! l = Some E ∧ t !! i = Some class ∧ class_of E = class.
Proof.
  intros Hcl Hp.
  assert (Hi : classes h ps !! i = (Some <$> t) !! i) by (by rewrite Hcl).
  unfold classes in Hi. change (map ?f ps) with (f <$> ps) in Hi.
  rewrite !list_lookup_fmap, Hp in Hi. simpl in Hi.
  destruct p as [l|]; [|by destruct (t !! i)].
  destruct (h !! l) as [E|] eqn:Hl; [|by destruct (t !! i)].
  destruct (t !! i) as [class|]; [|done].
  injection Hi as Hi. by exists l, E, class.
Qed.

Lemma catalog_kinds_distinct (i j : nat) (ci cj : string * Z * string) :
  catalog_table !! i = Some ci → catalog_table !! j = Some cj →
  String.eqb ci.1.1 cj.1.1 = bool_decide (i = j).
Proof.
  intros Hi Hj.
  assert (i < 8 ∧ j < 8) as [Hi8 Hj8].
  { apply lookup_lt_Some in Hi, Hj. simpl in Hi, Hj. lia. }
  do 8 (destruct i as [|i]; [injection Hi as <-;
    do 8 (destruct j as [|j]; [injection Hj as <-; done|]); lia|]).
  lia.
Qed.

(** X14: wherever the predefined errors of [error.go] have the kinds
    of the table, as in every store a program reaches, [Is] of one
    predefined error on another returns true exactly when they are the
    same entry, although [ErrorInternalServerError] and [ErrorPanic]
    share the code 500; and every error made by [Wrap] or
    [DefaultError] matches [ErrorInternalServerError], whose message
    is another. *)
Theorem catalog_entries_Is (vars : Eager.Catalog) (h : heap) :
  classes h (Eager.entries vars) = Some <$> catalog_table →
  (∀ i j p q, Eager.entries vars !! i = Some p → Eager.entries vars !! j = Some q →
              Is h p (error_Error q) = Some (bool_decide (i = j))) ∧
  (∀ dump dump' err,
     ∃ w h' W N, Eager.Wrap dump dump' err h = Some (w, h') ∧
                 Is h' w (error_Error (Eager.ErrorInternalServerError vars)) = Some true ∧
                 load w h' = Some (W, h') ∧
                 load (Eager.ErrorInternalServerError vars) h' = Some (N, h') ∧
                 e_Code W = e_Code N ∧ e_Message W ≠ e_Message N) ∧
  (∀ dump,
     ∃ d h', Eager.DefaultError dump h = Some (d, h') ∧
             Is h' d (error_Error (Eager.ErrorInternalServerError vars)) = Some true).
Proof.
  intros Hcl.
  assert (H6 : ∃ l N, Eager.ErrorInternalServerError vars = Some l ∧ h !! l = Some N ∧
                      class_of N = ("INTERNAL_SERVER_ERROR", 500%Z, "Internal server error")).
  { destruct (classes_lookup h _ _ 6 _ Hcl eq_refl) as (l & N & class & Hl & HN & [= <-] & Hc).
    by exists l, N. }
  destruct H6 as (l & N & Hv & HN & [= Hk Hcode Hm]).
  split; [|split].
  - intros i j p q Hp Hq.
    destruct (classes_lookup h _ _ i p Hcl Hp) as (a & A & ci & -> & HA & Hi & <-).
    destruct (classes_lookup h _ _ j q Hcl Hq) as (b & B & cj & -> & HB & Hj & <-).
    rewrite (Is_structured h a b A B HA HB).
    f_equal. apply (catalog_kinds_distinct i j _ _ Hi Hj).
  - intros dump dump' err. do 4 eexists. split; [apply Eager_Wrap_eq|].
    rewrite Hv. split; [rewrite (Is_wrapper_on_cause h l N _ HN), Hk; done|].
    split; [unfold load; by rewrite lookup_fresh|].
    split; [unfold load; by rewrite (lookup_old _ _ _ _ HN)|].
    rewrite Hm, Hcode. done.
  - intros dump. do 2 eexists. split; [apply Eager_DefaultError_eq|].
    rewrite Hv. rewrite (Is_wrapper_on_cause h l N _ HN), Hk. done.
Qed.

(** X15: each predefined error describes itself by the message of its
    row of the table and unwraps to nil: the variables of [error.go]
    after package initialisation, and what the factories of the other
    version return. *)
Theorem predefined_descriptions (i : nat) (class : string * Z * string) :
  catalog_table !! i = Some class →
  (∀ dumps h,
     ∃ vars h0 p, Eager.init dumps h = Some (vars, h0) ∧
                  Eager.entries vars !! i = Some p ∧
                  description h0 p = Some class.2 ∧ Unwrap h0 p = Some error_nil) ∧
  (∀ callers h c,
     Lazy.factories !! i = Some c →
     ∃ p h', Lazy.run callers c h = Some (p, h') ∧
             description h' p = Some class.2 ∧ Unwrap h' p = Some error_nil).
Proof.
  intros Hi. split.
  - intros dumps h.
    destruct (lookup_lt_is_Some_2 (Eager.entries (Eager_vars (length h))) i) as [p Hp].
    { apply lookup_lt_Some in Hi. simpl in *. lia. }
    exists (Eager_vars (length h)), (h ++ Eager_initial dumps), p.
    split; [apply Eager_init_eq|]. split; [done|].
    destruct (Eager_entries_after_init dumps h i p Hp) as (class' & Hc & Hload).
    rewrite Hi in Hc. injection Hc as <-.
    unfold load in Hload. destruct p as [l|]; [|done].
    destruct ((h ++ Eager_initial dumps) !! l) as [E|] eqn:Hl; [|done].
    injection Hload as ->. destruct class as [[kind code] message].
    split; [|by simpl; rewrite Hl].
    unfold description. by rewrite (Error_Error_no_cause _ _ _ _ Hl eq_refl).
  - intros callers h c Hc.
    assert (i < 8) by (apply lookup_lt_Some in Hi; simpl in Hi; lia).
    do 8 (destruct i as [|i];
      [injection Hi as <-; injection Hc as <-; do 2 eexists;
       (split; [reflexivity|]); simpl; rewrite lookup_fresh;
       (split; [|done]); by apply description_fresh_no_cause|]).
    lia.
Qed.

(** ** Bounds on what stack capture returns *)

Lemma substring_length_le (n : nat) (s : string) :
  (String.length (String.substring 0 n s) ≤ n)%nat.
Proof.
  revert s. induction n as [|n IH]; intros [|c s]; simpl; try lia.
  specialize (IH s). lia.
Qed.

(** Two lines that are not empty are a line feed apart. *)
Lemma Split_nonempty_count (s : string) :
  (2 * length (List.filter nonempty (strings_Split s)) +
  match strings_Split s with
  | x :: _ => if String.eqb x "" then 1 else 0
  | [] => 0
  end ≤ S (String.length s))%nat.
Proof.
  induction s as [|c s IH]; simpl; [lia|].
  destruct (Ascii.eqb c newline); simpl.
  - destruct (strings_Split s) as [|x r]; simpl in *; [lia|].
    destruct (String.eqb x ""); lia.
  - destruct (strings_Split s) as [|x r]; simpl in *; [lia|].
    unfold nonempty in *. destruct (String.eqb x ""); simpl in *; lia.
Qed.

Lemma trimmed_nonblank_count (pieces : list string) :
  (length (List.filter nonblank (map strings_TrimSpace pieces)) ≤
   length (List.filter nonempty pieces))%nat.
Proof.
  induction pieces as [|p pieces IH]; simpl; [done|].
  destruct p as [|c p].
  - change (nonblank (strings_TrimSpace "")) with false. simpl. lia.
  - simpl. destruct (nonblank _); simpl; lia.
Qed.

(** X16: the capture of [error.go] returns at most 2048 entries, none
    of them empty, whatever the dump: it reads 4096 bytes, and two
    lines that count are at least a line feed apart.  The bound is
    reached, by a dump of 2048 lines of one byte. *)
Theorem Eager_captureStackTrace_bound (dump : string) :
  (len (Eager.captureStackTrace dump) ≤ 2048)%nat ∧
  Forall (λ t, t ≠ "") (elems (Eager.captureStackTrace dump)) ∧
  len (Eager.captureStackTrace dense_dump) = 2048.
Proof.
  split; [|split].
  - rewrite Eager_captureStackTrace_eq. unfold len. simpl elems.
    pose proof (trimmed_nonblank_count (strings_Split (String.substring 0 4096 dump))).
    pose proof (Split_nonempty_count (String.substring 0 4096 dump)).
    pose proof (substring_length_le 4096 dump).
    destruct (strings_Split (String.substring 0 4096 dump)) as [|x r]; [simpl in *; lia|].
    destruct (String.eqb x ""); lia.
  - rewrite Eager_captureStackTrace_eq. simpl elems.
    apply Forall_forall. intros t Ht. apply list_elem_of_In in Ht.
    apply List.filter_In in Ht as [_ Ht]. unfold nonblank in Ht.
    by apply bool_decide_eq_true in Ht.
  - by vm_compute.
Qed.

(** X17: the capture of the factory version records exactly the
    renderings of the frames that lie after its own frame and [skip]
    further ones, among the first 32 of them, and whose function is
    neither of [runtime.] nor of [testing.]; a stack with no frame
    beyond the skipped ones gives the empty non-nil slice, and so does
    one whose frames looked at are all of the runtime or of
    [testing]. *)
Theorem Lazy_captureStackTrace_entries (stack : list Frame) (skip : nat) :
  (∀ t, t ∈ elems (Lazy.captureStackTrace stack skip) ↔
        ∃ f, f ∈ take 32 (drop (skip + 1) stack) ∧
             Lazy.isRelevantFrame f = true ∧ t = Lazy.render f) ∧
  ((length stack ≤ skip + 1)%nat → Lazy.captureStackTrace stack skip = slice_of []) ∧
  (Forall (λ f, Lazy.isRelevantFrame f = false) (take 32 (drop (skip + 1) stack)) →
   Lazy.captureStackTrace stack skip = slice_of []).
Proof.
  rewrite Lazy_captureStackTrace_eq. split; [|split].
  - intros t. simpl elems. rewrite list_elem_of_In, List.in_map_iff. split.
    + intros (f & <- & [Hf Hr]%List.filter_In). exists f. by rewrite list_elem_of_In.
    + intros (f & Hf & Hr & ->). exists f. split; [done|].
      apply List.filter_In. by rewrite <- list_elem_of_In.
  - intros Hshallow. by rewrite drop_ge by lia.
  - intros Hall. f_equal.
    induction Hall as [|f fs Hf _ IH]; simpl; [done|]. by rewrite Hf.
Qed.

(** ** The further properties at sample inputs *)

Lemma Eager_Wrap_stack_witness :
  ∃ W h', Eager.Wrap init_dump handler_dump db_down [] = Some (Some 0, h') ∧
          h' !! 0 = Some W ∧
          e_StackTraces W = Eager.captureStackTrace init_dump.
Proof.
  destruct (Eager_Wrap_stack init_dump handler_dump db_down [])
    as (D & W & _ & Hw & _ & HD & Hkeep).
  exists W, [W]. split; [exact Hw|]. split; [reflexivity|].
  rewrite <- HD. apply Hkeep. vm_compute. discriminate.
Defined.

Lemma Eager_Violations_frame_witness :
  Eager.Violations sample_vars handler_dump (slice_of [email_required]) [] = None ∧
  ∃ h', Eager.Violations sample_vars handler_dump (slice_of [email_required]) sample_store
          = Some (Some 5, h') ∧
        length h' = 8 ∧ h' !! 3 = sample_store !! 3.
Proof.
  destruct (Eager_Violations_frame sample_vars handler_dump (slice_of [email_required]) [])
    as [Hnone _].
  split; [apply Hnone; reflexivity|].
  pose proof (Eager_Violations_eq sample_vars handler_dump (slice_of [email_required])
                sample_store 5 unprocessable eq_refl eq_refl) as Hrun.
  destruct (Eager_Violations_frame sample_vars handler_dump (slice_of [email_required])
              sample_store) as [_ Hsome].
  destruct (Hsome _ _ Hrun) as (_ & Hlen & Hother & _).
  eexists. split; [exact Hrun|]. split; [exact Hlen|].
  apply Hother. discriminate.
Defined.

Lemma Eager_Violations_twice_witness :
  ∃ h1 h2, Eager.Violations sample_vars handler_dump (slice_of [email_required]) sample_store
             = Some (Some 5, h1) ∧
           Eager.Violations sample_vars handler_dump (slice_of []) h1 = Some (Some 5, h2) ∧
           (e_Violations <$> h1 !! 5) = Some (slice_of [email_required]) ∧
           (e_Violations <$> h2 !! 5) = Some (slice_of []).
Proof.
  destruct (Eager_Violations_twice sample_vars handler_dump handler_dump
              (slice_of [email_required]) (slice_of []) sample_store 5 unprocessable
              eq_refl eq_refl)
    as (h1 & h2 & E1 & E2 & Hr1 & Hr2 & Hl1 & Hv1 & Hl2 & Hv2 & _).
  exists h1, h2. split; [exact Hr1|]. split; [exact Hr2|].
  rewrite Hl1, Hl2. simpl. by rewrite Hv1, Hv2.
Defined.

Lemma Eager_Violations_keeps_observations_witness :
  ∃ h', Eager.Violations sample_vars handler_dump (slice_of [email_required]) sample_store
          = Some (Some 5, h') ∧
        description h' (Some 5) = description sample_store (Some 5) ∧
        Is h' (Some 5) (error_Error (Some 3)) = Is sample_store (Some 5) (error_Error (Some 3)).
Proof.
  pose proof (Eager_Violations_eq sample_vars handler_dump (slice_of [email_required])
                sample_store 5 unprocessable eq_refl eq_refl) as Hrun.
  destruct (Eager_Violations_keeps_observations _ _ _ _ _ _ Hrun) as (Hd & _ & HIs & _).
  eexists. split; [exact Hrun|]. split; [apply Hd|apply HIs].
Defined.

Lemma Is_equivalence_witness :
  Is [not_found; wrapping_db_down; not_found] (Some 0) (error_Error (Some 0)) = Some true ∧
  Is [not_found; wrapping_db_down; not_found] (Some 0) (error_Error (Some 1)) =
  Is [not_found; wrapping_db_down; not_found] (Some 1) (error_Error (Some 0)).
Proof.
  destruct (Is_equivalence [not_found; wrapping_db_down; not_found] 0 1 2
              not_found wrapping_db_down not_found eq_refl eq_refl eq_refl)
    as (Hrefl & Hsym & _).
  by split.
Defined.

Lemma Is_panics_exactly_witness :
  Is [not_found] (Some 0) (error_Error None) = None ∧
  Is [wrapping slice_err] (Some 0) slice_err = None.
Proof.
  split.
  - apply (proj1 (Is_panics_exactly [not_found] 0 not_found (error_Error None) eq_refl I)).
    by left.
  - apply (proj1 (Is_panics_exactly [wrapping slice_err] 0 (wrapping slice_err) slice_err
                    eq_refl I)).
    right. do 4 eexists. repeat split; reflexivity.
Defined.

Lemma Wrap_Is_foreign_witness :
  (Lazy.Wrap handler_stack db_down [] ≫= λ '(p, h'), Is h' p db_down) = Some true ∧
  (Lazy.Wrap handler_stack db_down [] ≫= λ '(p, h'), Is h' p other_db_down) = Some false.
Proof.
  split.
  - destruct (Wrap_Is_foreign (Foreign "*errors.errorString" 1 by_pointer "db down")
                (Foreign "*errors.errorString" 1 by_pointer "db down") [])
      as (_ & Hlazy & Hpointers & _).
    destruct (Hlazy handler_stack) as (Hmatch & _).
    exact (eq_trans Hmatch (Hpointers eq_refl eq_refl)).
  - destruct (Wrap_Is_foreign (Foreign "*errors.errorString" 1 by_pointer "db down")
                (Foreign "*errors.errorString" 2 by_pointer "db down") [])
      as (_ & Hlazy & Hpointers & _).
    destruct (Hlazy handler_stack) as (Hmatch & _).
    exact (eq_trans Hmatch (Hpointers eq_refl eq_refl)).
Defined.

Lemma wrap_chain_description_witness :
  ∃ x h', wrap_chain (λ _, Lazy.Wrap handler_stack) 3 db_down [] = Some (x, h') ∧
          length h' = 3 ∧ error_description h' x = Some "db down".
Proof.
  assert (Hc : db_down ≠ error_nil) by discriminate.
  destruct (wrap_chain_description 3 db_down [] acyclic_nil I Hc) as (_ & _ & Hlazy).
  destruct (Hlazy (λ _, handler_stack)) as (x & h' & Hrun & Hlen & Hd).
  exists x, h'. split; [exact Hrun|]. split; [exact Hlen|]. exact Hd.
Defined.

Lemma Eager_built_invariant_witness :
  acyclic sample_store ∧
  classes sample_store (Eager.entries sample_vars) = Some <$> catalog_table ∧
  is_Some (Eager.Violations sample_vars handler_dump (slice_of [email_required]) sample_store).
Proof.
  destruct (Eager_built_invariant sample_vars sample_store
              (Eager_built_init sample_vars (λ _, init_dump) sample_store
                 (Eager_init_eq (λ _, init_dump) [])))
    as (Hh & _ & Hcl & Hv).
  split; [exact Hh|]. split; [exact Hcl|]. apply Hv.
Defined.

Lemma Lazy_built_invariant_witness :
  ∃ h, Lazy.New handler_stack 404 "Not found" "NOT_FOUND" [] = Some (Some 0, h) ∧
       acyclic h ∧
       ∃ p h', Lazy.Wrap handler_stack (error_Error (Some 0)) h = Some (p, h') ∧
               description h' (Some 0) = description h (Some 0).
Proof.
  pose proof (Lazy_New_eq handler_stack 404 "Not found" "NOT_FOUND" []) as Hnew.
  eexists. split; [exact Hnew|].
  destruct (Lazy_built_invariant _
              (Lazy_built_run [] handler_stack (Lazy.CNew 404 "Not found" "NOT_FOUND")
                 _ _ Lazy_built_start I Hnew))
    as (Hh & _ & Hnext).
  split; [exact Hh|].
  destruct (Hnext handler_stack (Lazy.CWrap (error_Error (Some 0)))) as (p & h' & Hrun & Hd).
  exists p, h'. split; [exact Hrun|]. apply Hd. simpl. lia.
Defined.

Lemma catalog_entries_Is_witness :
  Is sample_store (Eager.ErrorNotFound sample_vars)
     (error_Error (Eager.ErrorBadRequest sample_vars)) = Some false ∧
  Is sample_store (Eager.ErrorPanic sample_vars)
     (error_Error (Eager.ErrorPanic sample_vars)) = Some true.
Proof.
  destruct (catalog_entries_Is sample_vars sample_store (Eager_init_classes (λ _, init_dump) []))
    as (Hentries & _).
  split.
  - exact (Hentries 3 0 _ _ eq_refl eq_refl).
  - exact (Hentries 7 7 _ _ eq_refl eq_refl).
Defined.

Lemma predefined_descriptions_witness :
  ∃ p h', Lazy.ErrorNotFound handler_stack [] = Some (p, h') ∧
          description h' p = Some "Not found" ∧ Unwrap h' p = Some error_nil.
Proof.
  destruct (predefined_descriptions 3 ("NOT_FOUND", 404%Z, "Not found") eq_refl) as (_ & Hlazy).
  exact (Hlazy handler_stack [] Lazy.CErrorNotFound eq_refl).
Defined.

Lemma Lazy_captureStackTrace_entries_witness :
  Lazy.captureStackTrace [Lazy.own_frame "captureStackTrace" 16; Lazy.own_frame "New" 66] 1
    = slice_of [] ∧
  Lazy.captureStackTrace
    (Lazy.own_frame "captureStackTrace" 16 :: Lazy.own_frame "New" 66 ::
     drop 2 handler_stack) 1 = slice_of [].
Proof.
  split.
  - apply (proj1 (proj2 (Lazy_captureStackTrace_entries
             [Lazy.own_frame "captureStackTrace" 16; Lazy.own_frame "New" 66] 1))).
    simpl. lia.
  - apply (proj2 (proj2 (Lazy_captureStackTrace_entries
             (Lazy.own_frame "captureStackTrace" 16 :: Lazy.own_frame "New" 66 ::
              drop 2 handler_stack) 1))).
    by repeat constructor.
Defined.

(** ** What later calls do to an error already returned *)

(** X18: with the factory version an error, once returned, is never
    changed by the package: after any number of further calls of the
    constructors and factories, every struct of the store is as it
    was, so its description, cause and kind are. *)
Theorem Lazy_errors_immutable (h h' : heap) :
  later Lazy_step h h' →
  (length h ≤ length h')%nat ∧ ∀ l E, h !! l = Some E → h' !! l = Some E.
Proof.
  induction 1 as [h|h h1 h2 _ [IHlen IH] (callers & c & p & Hrun)]; [done|].
  destruct (Lazy_run_fields callers c h1) as (E1 & HE1 & _).
  rewrite HE1 in Hrun. injection Hrun as <- <-.
  split; [rewrite length_app; simpl; lia|].
  intros l E Hl. by apply lookup_old, IH.
Qed.

(** X19: with [error.go] the one error later calls change is the one
    the variable [ErrorUnprocessableEntity] points to: after any
    number of calls of [New], [DefaultError], [Wrap] and [Violations],
    every other struct of the store is as it was, and that one has
    kept its kind, code, message and cause. *)
Theorem Eager_errors_immutable (vars : Eager.Catalog) (h h' : heap) :
  later (Eager_step vars) h h' →
  (length h ≤ length h')%nat ∧
  ∀ l E, h !! l = Some E →
         ∃ E', h' !! l = Some E' ∧ class_of E' = class_of E ∧ e_Err E' = e_Err E ∧
               (Some l ≠ Eager.ErrorUnprocessableEntity vars → E' = E).
Proof.
  induction 1 as [h|h h1 h2 _ [IHlen IH] Hstep].
  { split; [done|]. intros l E Hl. by exists E. }
  assert (Hgrow : ∀ X, h2 = h1 ++ [X] →
    (length h ≤ length h2)%nat ∧
    ∀ l E, h !! l = Some E →
           ∃ E', h2 !! l = Some E' ∧ class_of E' = class_of E ∧ e_Err E' = e_Err E ∧
                 (Some l ≠ Eager.ErrorUnprocessableEntity vars → E' = E)).
  { intros X ->. split; [rewrite length_app; simpl; lia|].
    intros l E Hl. destruct (IH l E Hl) as (E' & Hl' & Hrest).
    exists E'. split; [by apply lookup_old|done]. }
  destruct Hstep as [h1 dump code message kind p h2 Hrun | h1 dump p h2 Hrun
                    | h1 dump dump' err p h2 Hrun | h1 dump violations p h2 Hrun].
  - rewrite Eager_New_eq in Hrun. injection Hrun as <- <-. by eapply Hgrow.
  - rewrite Eager_DefaultError_eq in Hrun. injection Hrun as <- <-. by eapply Hgrow.
  - rewrite Eager_Wrap_eq in Hrun. injection Hrun as <- <-. by eapply Hgrow.
  - apply Eager_Violations_inv in Hrun as (u & U & Hv & Hu & -> & ->).
    assert (u < length h1) by (by eapply lookup_lt_Some).
    split; [rewrite length_insert; lia|].
    intros l E Hl. destruct (IH l E Hl) as (E' & Hl' & Hc & He & Hsame).
    destruct (decide (u = l)) as [->|Hne].
    + rewrite Hu in Hl'. injection Hl' as ->.
      eexists. split; [by apply list_lookup_insert_eq|].
      split; [done|]. split; [done|]. intros Hneq. by rewrite Hv in Hneq.
    + exists E'. by rewrite list_lookup_insert_ne.
Qed.

(** ** The two versions side by side *)

(** X20: the two versions of the constructors build the same errors up
    to the stack trace: [New], [Wrap] and [DefaultError] given the same
    arguments, each predefined variable of [error.go] as initialised
    and the factory of the same rank, and [Violations] of [error.go]
    called after initialisation and [Violations] of the factory
    version. *)
Theorem versions_agree_but_stack (h : heap) :
  (∀ dump callers code message errorType,
     ∃ E E', Eager.New dump code message errorType h = Some (Some (length h), h ++ [E]) ∧
             Lazy.New callers code message errorType h = Some (Some (length h), h ++ [E']) ∧
             same_but_stack E E') ∧
  (∀ dump dump' callers err,
     ∃ E E', Eager.Wrap dump dump' err h = Some (Some (length h), h ++ [E]) ∧
             Lazy.Wrap callers err h = Some (Some (length h), h ++ [E']) ∧
             same_but_stack E E') ∧
  (∀ dump callers,
     ∃ E E', Eager.DefaultError dump h = Some (Some (length h), h ++ [E]) ∧
             Lazy.DefaultError callers h = Some (Some (length h), h ++ [E']) ∧
             same_but_stack E E') ∧
  (∀ dumps callers,
     ∃ vars h0, Eager.init dumps h = Some (vars, h0) ∧
       Forall2 (λ p c, ∃ E E' h', load p h0 = Some (E, h0) ∧
                                  Lazy.run callers c h = Some (Some (length h), h') ∧
                                  h' !! length h = Some E' ∧
                                  same_but_stack E E')
               (Eager.entries vars) Lazy.factories) ∧
  (∀ dumps dump callers issues,
     ∃ vars h0 p h1 E E', Eager.init dumps h = Some (vars, h0) ∧
       Eager.Violations vars dump issues h0 = Some (p, h1) ∧
       load p h1 = Some (E, h1) ∧
       Lazy.Violations callers issues h = Some (Some (length h), h ++ [E']) ∧
       same_but_stack E E').
Proof.
  split; [|split; [|split; [|split]]].
  - intros. do 2 eexists. split; [apply Eager_New_eq|]. split; [apply Lazy_New_eq|done].
  - intros. do 2 eexists. split; [apply Eager_Wrap_eq|]. split; [apply Lazy_Wrap_eq|done].
  - intros. do 2 eexists. split; [apply Eager_DefaultError_eq|]. split; [reflexivity|done].
  - intros dumps callers. do 2 eexists. split; [apply Eager_init_eq|].
    pose proof (λ i class Hi, Eager_initial_lookup dumps h i class Hi) as Hat.
    pose proof (Hat 0 _ eq_refl) as H0. rewrite Nat.add_0_r in H0.
    unfold Eager.entries, Eager_vars, Lazy.factories. simpl.
    repeat constructor;
      do 3 eexists; unfold load;
      (split; [first [by rewrite H0 | by erewrite Hat by reflexivity]|]);
      (split; [reflexivity|]); (split; [apply lookup_fresh|done]).
  - intros dumps dump callers issues.
    destruct (Eager_Violations_after_init dumps dump issues h) as (Hi & H0 & Hv & H1).
    do 6 eexists. split; [exact Hi|]. split; [exact Hv|].
    split; [unfold load; by rewrite H1|]. split; [apply Lazy_Violations_eq|done].
Qed.

(** X21: the description of the error [Violations] returns never tells
    the issues: it is "Unprocessable entity" whatever they are, with the
    factory version in every store and with [error.go] after package
    initialisation, and the error unwraps to nil. *)
Theorem Violations_description (issues : slice ValidationError) (h : heap) :
  (∀ callers,
     ∃ p h', Lazy.Violations callers issues h = Some (p, h') ∧
             description h' p = Some "Unprocessable entity" ∧
             Unwrap h' p = Some error_nil) ∧
  (∀ dumps dump,
     ∃ vars h0 p h1, Eager.init dumps h = Some (vars, h0) ∧
                     Eager.Violations vars dump issues h0 = Some (p, h1) ∧
                     description h1 p = Some "Unprocessable entity" ∧
                     Unwrap h1 p = Some error_nil).
Proof.
  split.
  - intros callers. do 2 eexists. split; [apply Lazy_Violations_eq|].
    split; [by apply description_fresh_no_cause|]. simpl. by rewrite lookup_fresh.
  - intros dumps dump.
    destruct (Eager_Violations_after_init dumps dump issues h) as (Hi & H0 & Hv & H1).
    do 4 eexists. split; [exact Hi|]. split; [exact Hv|]. split.
    + unfold description. by rewrite (Error_Error_no_cause _ _ _ _ H1 eq_refl).
    + simpl. by rewrite H1.
Qed.

Lemma Lazy_errors_immutable_witness :
  ∃ h', later Lazy_step [not_found] h' ∧ length h' = 3 ∧ h' !! 0 = Some not_found.
Proof.
  pose proof (Lazy_Wrap_eq handler_stack (error_Error (Some 0)) [not_found]) as Hwrap.
  pose proof (Lazy_Violations_eq staging_stack (slice_of [email_required])
                ([not_found] ++
                 [mkError "INTERNAL_SERVER_ERROR" 500 "An internal server error occurred"
                          make0 (error_Error (Some 0))
                          (Lazy.capture_in "Wrap" 79 handler_stack)])) as Hviolations.
  eexists. split.
  - eapply later_step; [eapply later_step; [apply later_now|]|].
    + exists handler_stack, (Lazy.CWrap (error_Error (Some 0))). eexists. exact Hwrap.
    + exists staging_stack, (Lazy.CViolations (slice_of [email_required])). eexists.
      exact Hviolations.
  - split; [reflexivity|].
    match goal with |- ?h' !! 0 = _ =>
      assert (Hlater : later Lazy_step [not_found] h') end.
    { eapply later_step; [eapply later_step; [apply later_now|]|].
      + exists handler_stack, (Lazy.CWrap (error_Error (Some 0))). eexists. exact Hwrap.
      + exists staging_stack, (Lazy.CViolations (slice_of [email_required])). eexists.
        exact Hviolations. }
    exact (proj2 (Lazy_errors_immutable _ _ Hlater) 0 not_found eq_refl).
Defined.

Lemma Eager_errors_immutable_witness :
  ∃ h', later (Eager_step sample_vars) sample_store h' ∧
        h' !! 3 = sample_store !! 3 ∧
        (e_Type <$> h' !! 5) = Some "UNPROCESSABLE_ENTITY".
Proof.
  pose proof (Eager_Violations_eq sample_vars handler_dump (slice_of [email_required])
                sample_store 5 unprocessable eq_refl eq_refl) as Hviolations.
  assert (Hlater : later (Eager_step sample_vars) sample_store
                     (<[5 := mkError (e_Type unprocessable) (e_Code unprocessable)
                                     (e_Message unprocessable) (slice_of [email_required])
                                     (e_Err unprocessable)
                                     (if (len (e_StackTraces unprocessable) =? 0)%nat
                                      then Eager.captureStackTrace handler_dump
                                      else e_StackTraces unprocessable)]> sample_store)).
  { eapply later_step; [apply later_now|].
    eapply Eager_step_Violations. exact Hviolations. }
  eexists. split; [exact Hlater|].
  destruct (Eager_errors_immutable _ _ _ Hlater) as [_ Hkeep]. split.
  - destruct (Hkeep 3 (Eager_entry init_dump ("NOT_FOUND", 404%Z, "Not found")) eq_refl)
      as (E' & HE' & _ & _ & Hsame).
    rewrite HE', Hsame by discriminate. reflexivity.
  - destruct (Hkeep 5 unprocessable eq_refl) as (E' & HE' & [= Hk _ _] & _).
    rewrite HE'. simpl. by rewrite Hk.
Defined.

(** ** Package initialisation *)

(** X22: package initialisation of [error.go] allocates the eight
    predefined errors at eight distinct addresses that were not in use
    and touches no struct of the store; each has empty non-nil
    violations, no cause, and the stack captured while its own
    initialiser ran, which is the one every later use of it shows. *)
Theorem Eager_init_spec (dumps : nat → string) (h : heap) :
  ∃ vars h0,
    Eager.init dumps h = Some (vars, h0) ∧
    length h0 = length h + 8 ∧
    NoDup (Eager.entries vars) ∧
    (∀ l E, h !! l = Some E → h0 !! l = Some E) ∧
    ∀ i p, Eager.entries vars !! i = Some p →
           ∃ l E, p = Some l ∧ h !! l = None ∧ h0 !! l = Some E ∧
                  e_Violations E = slice_of [] ∧ e_Err E = error_nil ∧
                  e_StackTraces E = Eager.captureStackTrace (dumps i).
Proof.
  do 2 eexists. split; [apply Eager_init_eq|].
  split; [by rewrite length_app|]. split; [|split].
  - replace (Eager.entries (Eager_vars (length h)))
      with ((λ k, Some (length h + k)) <$> seq 0 8)
      by (unfold Eager.entries, Eager_vars; simpl; by rewrite Nat.add_0_r).
    apply NoDup_fmap_2; [|apply NoDup_seq]. intros a b [= Hab]. lia.
  - intros l E Hl. by apply lookup_app_l_Some.
  - intros i p Hp.
    destruct (Eager_entries_after_init dumps h i p Hp) as (class & Hc & Hload).
    assert (i < 8) by (apply lookup_lt_Some in Hc; simpl in Hc; lia).
    assert (p = Some (length h + i)) as ->.
    { do 8 (destruct i as [|i]; [simpl in Hp; injection Hp as <-; f_equal; lia|]). lia. }
    unfold load in Hload.
    destruct ((h ++ Eager_initial dumps) !! (length h + i)) as [E|] eqn:Hl; [|done].
    injection Hload as ->.
    exists (length h + i), (Eager_entry (dumps i) class).
    split; [done|]. split; [apply lookup_ge_None_2; lia|]. split; [done|].
    by destruct class as [[kind code] message].
Qed.
